(** * TUM RGB-D to BundleFusion converter: model and verified properties

    Shallow embedding of [convert_tum_to_bf/tum_to_bf.py]: the stream loader,
    the greedy frame synchroniser with its transcoding steps, the manifest
    writer and the batch driver.

    Conventions of the embedding.
    - A Python [str] is a [string]; each [ascii] stands for one code point
      below 256, so comparison of strings is comparison of code points.
    - A Python exception is a value of [exn]; a function that may raise
      returns a sum or one of the control types below.
    - Python's [float], its arithmetic and scipy's quaternion conversion are
      not part of the repository: they form the interface [Numeric].  Theorems
      are stated for every implementation of the interface, with the laws they
      use as explicit hypotheses; [Exact] is an implementation on rationals on
      which the definitions run, and [Binary64] is the implementation on
      IEEE 754 double precision, the arithmetic the program runs on.
    - The output folder is the list of (file name, artifact) pairs in the
      order they are written; image codecs are not modelled, an artifact
      records what is encoded.  Directories created and messages printed
      are left out. *)

From Stdlib Require Import List Bool Arith ZArith QArith Qabs Lia.
From Stdlib Require Import Permutation Sorted.
From Stdlib Require Import Ascii String Decimal DecimalString DecimalNat.
From Stdlib Require Import SpecFloat.
Import ListNotations.

Local Close Scope Q_scope.
Local Open Scope string_scope.
Local Open Scope list_scope.

(** ** Python string operations *)

Module PyStr.

(** [str.isspace] on one code point below 256. *)
Definition is_space (c : ascii) : bool :=
  let n := nat_of_ascii c in
  (((9 <=? n) && (n <=? 13)) || ((28 <=? n) && (n <=? 32))
   || (n =? 133) || (n =? 160))%nat.

(** [str.lower] on one code point below 256. *)
Definition lower_char (c : ascii) : ascii :=
  let n := nat_of_ascii c in
  if (((65 <=? n) && (n <=? 90))
      || ((192 <=? n) && (n <=? 222) && negb (n =? 215)))%nat
  then ascii_of_nat (n + 32) else c.

Fixpoint lower (s : string) : string :=
  match s with
  | EmptyString => EmptyString
  | String c s' => String (lower_char c) (lower s')
  end.

Fixpoint lstrip (s : string) : string :=
  match s with
  | EmptyString => EmptyString
  | String c s' => if is_space c then lstrip s' else s
  end.

Fixpoint rstrip (s : string) : string :=
  match s with
  | EmptyString => EmptyString
  | String c s' =>
      match rstrip s' with
      | EmptyString => if is_space c then EmptyString else String c EmptyString
      | r => String c r
      end
  end.

(** [s.strip()] *)
Definition strip (s : string) : string := rstrip (lstrip s).

(** Truth value of a string: non-empty. *)
Definition truthy (s : string) : bool :=
  match s with EmptyString => false | String _ _ => true end.

(** [s.split()]: maximal runs of non-whitespace code points. *)
Fixpoint split (s : string) : list string :=
  match s with
  | EmptyString => []
  | String c s' =>
      if is_space c then split s'
      else match s' with
           | EmptyString => [String c EmptyString]
           | String c' _ =>
               if is_space c' then String c EmptyString :: split s'
               else match split s' with
                    | [] => [String c EmptyString]
                    | t :: ts => String c t :: ts
                    end
           end
  end.

(** [s.startswith(p)] *)
Definition startswith (p s : string) : bool := String.prefix p s.

(** [s.endswith(suf)] *)
Definition endswith (suf s : string) : bool :=
  (String.length suf <=? String.length s)%nat
  && String.eqb
       (String.substring (String.length s - String.length suf)
                         (String.length suf) s) suf.

(** [s.endswith((suf1, suf2, ...))] *)
Definition endswith_any (sufs : list string) (s : string) : bool :=
  existsb (fun suf => endswith suf s) sufs.

(** The part of [s] before its last ["."], when there is one. *)
Fixpoint before_last_dot (s : string) : option string :=
  match s with
  | EmptyString => None
  | String c s' =>
      match before_last_dot s' with
      | Some t => Some (String c t)
      | None => if Ascii.eqb c "." then Some EmptyString else None
      end
  end.

(** [s.rsplit(".", 1)[0]] *)
Definition rsplit_dot_head (s : string) : string :=
  match before_last_dot s with
  | Some t => t
  | None => s
  end.

(** [sub in s] *)
Fixpoint contains (sub s : string) : bool :=
  String.prefix sub s
  || match s with
     | EmptyString => false
     | String _ s' => contains sub s'
     end.

Fixpoint zeros (n : nat) : string :=
  match n with
  | O => EmptyString
  | S k => String "0" (zeros k)
  end.

(** [f"{n:06d}"] for a non-negative integer. *)
Definition fmt_06d (n : nat) : string :=
  let d := NilZero.string_of_uint (Nat.to_uint n) in
  zeros (6 - String.length d)%nat ++ d.

(** The number a string of decimal digits denotes, leading zeros allowed. *)
Definition read_index (s : string) : option nat :=
  option_map Nat.of_uint (NilEmpty.uint_of_string s).

(** [sorted] on a list of strings.  Python's sort is stable and compares with
    [<] only; on a list the stable sorted arrangement is unique, and this
    insertion sort computes it. *)
Fixpoint insert (x : string) (l : list string) : list string :=
  match l with
  | [] => [x]
  | y :: l' => if String.ltb y x then y :: insert x l' else x :: l
  end.

Definition sorted (l : list string) : list string :=
  fold_right insert [] l.

(** [a <= b] on strings: code point by code point. *)
Definition le (a b : string) : Prop := String.leb a b = true.

(** Only whitespace. *)
Fixpoint blank (s : string) : bool :=
  match s with
  | EmptyString => true
  | String c s' => is_space c && blank s'
  end.

End PyStr.

(** ** Exceptions and results *)

Inductive exn : Type :=
| ValueError   (* float() on a malformed token, a failed unpacking,
                  list.remove of an absent value, a zero quaternion *)
| IndexError   (* parts[0] on an empty list *)
| OSError.     (* Image.open on a file that is not a readable image *)

Inductive result (A : Type) : Type :=
| Ok (a : A)
| Raise (e : exn).
Arguments Ok {A} a.
Arguments Raise {A} e.

Definition bind_result {A B} (r : result A) (k : A -> result B) : result B :=
  match r with
  | Ok a => k a
  | Raise e => Raise e
  end.

Notation "x <- r ;; k" := (bind_result r (fun x => k))
  (at level 61, r at next level, right associativity).

(** A list comprehension whose element expression may raise: the first
    failure, in list order, is the exception of the whole comprehension. *)
Fixpoint comprehension {A B} (f : A -> result B) (l : list A)
  : result (list B) :=
  match l with
  | [] => Ok []
  | x :: l' => y <- f x ;; ys <- comprehension f l' ;; Ok (y :: ys)
  end.

(** ** The numeric interface: Python floats and scipy rotations *)

Class Numeric : Type := {
  float : Type;
  (** [float(s)]; [None] stands for the ValueError it raises *)
  py_float : string -> option float;
  (** [a - b], [abs(a)], [a < b], [a > b], [a == b] *)
  fsub : float -> float -> float;
  fabs : float -> float;
  flt : float -> float -> bool;
  fgt : float -> float -> bool;
  feq : float -> float -> bool;
  (** [R.from_quat([qx, qy, qz, qw]).as_matrix()]; [None] stands for the
      ValueError raised on a quaternion of norm zero *)
  rotation : Type;
  from_quat : float -> float -> float -> float -> option rotation
}.

Definition float_of {N : Numeric} (s : string) : result float :=
  match py_float s with
  | Some x => Ok x
  | None => Raise ValueError
  end.

(** ** Data model *)

Section Model.

Context {N : Numeric}.

(** A timestamped entry: the tuple [(timestamp, payload)].  [oid] is the
    identity of the tuple object; the loader creates every tuple afresh, so
    it numbers them.  Identity matters because [list.remove] compares with
    [is] before [==]. *)
Record entry (P : Type) : Type := Entry {
  oid : nat;
  ts : float;
  payload : P
}.
Arguments Entry {P} oid ts payload.
Arguments oid {P} e.
Arguments ts {P} e.
Arguments payload {P} e.

(** [a == b] on payloads: file names, and lists of tokens. *)
Definition tokens_eqb (a b : list string) : bool :=
  if list_eq_dec String.string_dec a b then true else false.

(** Comparison used by [list.remove]: the same object, or equal tuples. *)
Definition same_or_equal {P} (peqb : P -> P -> bool) (a b : entry P) : bool :=
  (oid a =? oid b)%nat || (feq (ts a) (ts b) && peqb (payload a) (payload b)).

(** [l.remove(x)]: drops the first item that is [x] or equals [x]; ValueError
    when there is none. *)
Fixpoint py_remove {A} (eqb : A -> A -> bool) (x : A) (l : list A)
  : result (list A) :=
  match l with
  | [] => Raise ValueError
  | y :: l' =>
      if eqb y x then Ok l'
      else l'' <- py_remove eqb x l' ;; Ok (y :: l'')
  end.

(** [min(x :: xs, key=key)]: a later item replaces the current best only when
    its key is strictly smaller, so the first of the minimal items wins. *)
Definition py_min {A} (key : A -> float) (x : A) (xs : list A) : A :=
  fold_left (fun best y => if flt (key y) (key best) then y else best) xs x.

(** [lambda x: abs(rgb_ts - x[0])] *)
Definition gap {P} (rgb_ts : float) (x : entry P) : float :=
  fabs (fsub rgb_ts (ts x)).

(** A decoded image: its pixel buffer, flattened. *)
Definition image : Type := list Z.

(** A directory of image files: name and decoded content, [None] for a file
    that [Image.open] rejects. *)
Definition image_dir : Type := list (string * option image).

Fixpoint lookup {A} (name : string) (d : list (string * A)) : option A :=
  match d with
  | [] => None
  | (n, a) :: d' => if String.eqb n name then Some a else lookup name d'
  end.

(** [Image.open(os.path.join(dir, name))] followed by decoding. *)
Definition open_image (d : image_dir) (name : string) : result image :=
  match lookup name d with
  | Some (Some img) => Ok img
  | _ => Raise OSError
  end.

(** A TUM scene folder: [rgb/] and [depth/] when they are directories,
    [groundtruth.txt] as the lines a text file yields, each with its line
    end. *)
Record scene : Type := Scene {
  rgb : option image_dir;
  depth : option image_dir;
  groundtruth : option (list string)
}.

(** What is written to the output folder. *)
Inductive artifact : Type :=
| ColorJpg (img : image)     (* convert("RGB"), JPEG at quality 100 *)
| DepthPng (px : list Z)     (* 16-bit PNG of the pixel buffer *)
| PoseTxt (rot : rotation) (tx ty tz : float)
                             (* 4x4 matrix [rot | t; 0 0 0 1], "%.6f" *)
| InfoTxt (text : string).

Record frame_match : Type := FrameMatch {
  fm_color : entry string;
  fm_depth : entry string;
  fm_pose : entry (list string)
}.

(** The variables of [combine_and_rename_files] that change in its loop, the
    output folder, and the history of matches made so far.  [matched] is a
    history variable: the code never reads it. *)
Record state : Type := State {
  depth_entries : list (entry string);
  pose_entries : list (entry (list string));
  frame_counter : nat;
  written : list (string * artifact);
  matched : list frame_match
}.

Definition write (name : string) (a : artifact) (s : state) : state :=
  State (depth_entries s) (pose_entries s) (frame_counter s)
        (written s ++ [(name, a)]) (matched s).

(** How one iteration of the loop over the color entries ends. *)
Inductive ctl : Type :=
| Completed (s : state)        (* ran to the end of the body *)
| Continue (s : state)         (* continue *)
| Break (s : state)            (* break *)
| Raised (e : exn) (s : state).

(** How the whole function ends. *)
Inductive run : Type :=
| Done (s : state)
| Abort (e : exn) (s : state).

Definition final (r : run) : state :=
  match r with Done s => s | Abort _ s => s end.

(** The exception that ended the function, if any. *)
Definition raised (r : run) : option exn :=
  match r with Done _ => None | Abort e _ => Some e end.

End Model.

Arguments Entry {N P} oid ts payload.
Arguments oid {N P} e.
Arguments ts {N P} e.
Arguments payload {N P} e.

(** ** The stream loader *)

Section Loader.

Context {N : Numeric}.

(** Numbers the freshly built tuples [(timestamp, payload)] of one list. *)
Fixpoint number {P} (i : nat) (l : list (float * P)) : list (entry P) :=
  match l with
  | [] => []
  | (t, p) :: l' => Entry i t p :: number (S i) l'
  end.

(** [sorted(f for f in os.listdir(path) if f.lower().endswith(exts))] *)
Definition image_files (exts : list string) (listing : list string)
  : list string :=
  PyStr.sorted
    (filter (fun f => PyStr.endswith_any exts (PyStr.lower f)) listing).

(** [(float(f.rsplit(".", 1)[0]), f)] *)
Definition image_entry (f : string) : result (float * string) :=
  t <- float_of (PyStr.rsplit_dot_head f) ;; Ok (t, f).

(** [[(float(f.rsplit(".", 1)[0]), f) for f in files]] *)
Definition image_entries (files : list string) : result (list (entry string)) :=
  l <- comprehension image_entry files ;; Ok (number 0 l).

(** The filter of the comprehension over the lines of the pose file:
    [line.strip() and not line.startswith("#")]. *)
Definition keeps (line : string) : bool :=
  PyStr.truthy (PyStr.strip line) && negb (PyStr.startswith "#" line).

(** [[line.strip() for line in f if ...]] *)
Definition pose_lines (file : list string) : list string :=
  map PyStr.strip (filter keeps file).

(** One turn of the loop over [pose_lines]: [parts = line.split()],
    [ts = float(parts[0])], [data = parts[1:]]. *)
Definition pose_entry (line : string) : result (float * list string) :=
  match PyStr.split line with
  | [] => Raise IndexError
  | p0 :: data => t <- float_of p0 ;; Ok (t, data)
  end.

Definition load_poses (file : list string)
  : result (list (entry (list string))) :=
  l <- comprehension pose_entry (pose_lines file) ;; Ok (number 0 l).

End Loader.

(** ** The frame synchroniser and transcoder *)

Section Synchroniser.

Context {N : Numeric}.

(** [depth_img.astype(np.uint16)] followed by [depth_img //= 5], on one
    pixel. *)
Definition depth_pixel (v : Z) : Z := ((v mod 65536) / 5)%Z.

(** [tx, ty, tz, qx, qy, qz, qw = map(float, closest_pose[1])]: ValueError
    when a token is not a number or when there are not exactly seven. *)
Definition unpack_pose (data : list string)
  : result (float * float * float * float * float * float * float) :=
  l <- comprehension float_of data ;;
  match l with
  | [tx; ty; tz; qx; qy; qz; qw] => Ok (tx, ty, tz, qx, qy, qz, qw)
  | _ => Raise ValueError
  end.

Definition rotation_of (qx qy qz qw : float) : result rotation :=
  match from_quat qx qy qz qw with
  | Some r => Ok r
  | None => Raise ValueError
  end.

(** The three transcoding steps of the loop body, for the frame named
    [frame_id].  A step that raises leaves what the earlier steps wrote. *)
Definition transcode (rgb_dir depth_dir : image_dir) (frame_id : string)
    (rgb_filename : string) (closest_depth : entry string)
    (closest_pose : entry (list string)) (s : state) : ctl :=
  match open_image rgb_dir rgb_filename with
  | Raise e => Raised e s
  | Ok rgb_img =>
      let s := write (frame_id ++ ".color.jpg")%string (ColorJpg rgb_img) s in
      match open_image depth_dir (payload closest_depth) with
      | Raise e => Raised e s
      | Ok depth_img =>
          let s := write (frame_id ++ ".depth.png")%string
                         (DepthPng (map depth_pixel depth_img)) s in
          match unpack_pose (payload closest_pose) with
          | Raise e => Raised e s
          | Ok (tx, ty, tz, qx, qy, qz, qw) =>
              match rotation_of qx qy qz qw with
              | Raise e => Raised e s
              | Ok rot =>
                  Completed
                    (write (frame_id ++ ".pose.txt")%string
                           (PoseTxt rot tx ty tz) s)
              end
          end
      end
  end.

(** The body of [for rgb_ts, rgb_filename in rgb_entries]. *)
Definition body (rgb_dir depth_dir : image_dir) (margin : float)
    (c : entry string) (s : state) : ctl :=
  let rgb_ts := ts c in
  let rgb_filename := payload c in
  let frame_id := ("frame-" ++ PyStr.fmt_06d (frame_counter s))%string in
  match depth_entries s with
  | [] => Break s
  | d0 :: ds =>
      let closest_depth := py_min (gap rgb_ts) d0 ds in
      if fgt (gap rgb_ts closest_depth) margin then Continue s
      else
        match pose_entries s with
        | [] => Break s
        | p0 :: ps =>
            let closest_pose := py_min (gap rgb_ts) p0 ps in
            if fgt (gap rgb_ts closest_pose) margin then Continue s
            else
              match py_remove (same_or_equal String.eqb) closest_depth
                              (depth_entries s) with
              | Raise e => Raised e s
              | Ok depth_entries' =>
                  match py_remove (same_or_equal tokens_eqb) closest_pose
                                  (pose_entries s) with
                  | Raise e =>
                      Raised e (State depth_entries' (pose_entries s)
                                      (frame_counter s) (written s)
                                      (matched s))
                  | Ok pose_entries' =>
                      transcode rgb_dir depth_dir frame_id rgb_filename
                        closest_depth closest_pose
                        (State depth_entries' pose_entries'
                               (S (frame_counter s)) (written s)
                               (matched s
                                ++ [FrameMatch c closest_depth closest_pose]))
                  end
              end
        end
  end.

(** The loop over the color entries. *)
Fixpoint for_rgb (rgb_dir depth_dir : image_dir) (margin : float)
    (rgb_entries : list (entry string)) (s : state) : run :=
  match rgb_entries with
  | [] => Done s
  | c :: rest =>
      match body rgb_dir depth_dir margin c s with
      | Completed s' => for_rgb rgb_dir depth_dir margin rest s'
      | Continue s' => for_rgb rgb_dir depth_dir margin rest s'
      | Break s' => Done s'
      | Raised e s' => Abort e s'
      end
  end.

Definition initial (ds : list (entry string)) (ps : list (entry (list string)))
  : state :=
  State ds ps 0 [] [].

(** [combine_and_rename_files(tum_folder, output_folder, margin)].  The
    result carries what the call wrote to [output_folder]. *)
Definition combine_and_rename_files (tum_folder : scene) (margin : float)
  : run :=
  match rgb tum_folder, depth tum_folder, groundtruth tum_folder with
  | Some rgb_dir, Some depth_dir, Some pose_file =>
      let rgb_files := image_files [".png"; ".jpg"] (map fst rgb_dir) in
      let depth_files := image_files [".png"] (map fst depth_dir) in
      match image_entries rgb_files with
      | Raise e => Abort e (initial [] [])
      | Ok rgb_entries =>
          match image_entries depth_files with
          | Raise e => Abort e (initial [] [])
          | Ok depth_entries0 =>
              match load_poses pose_file with
              | Raise e => Abort e (initial [] [])
              | Ok pose_entries0 =>
                  for_rgb rgb_dir depth_dir margin rgb_entries
                          (initial depth_entries0 pose_entries0)
              end
          end
      end
  | _, _, _ => Done (initial [] [])
  end.

(** ** The manifest writer and the batch driver *)

Definition nl : string := String (ascii_of_nat 10) EmptyString.

Definition intrinsics_of (folder_name : string) : string :=
  let folder_name_lower := PyStr.lower folder_name in
  if PyStr.contains "freiburg1" folder_name_lower
  then "517.3 0 318.6 0 0 516.5 255.3 0 0 0 1 0 0 0 0 1"
  else if PyStr.contains "freiburg2" folder_name_lower
  then "520.9 0 325.1 0 0 521.0 249.7 0 0 0 1 0 0 0 0 1"
  else if PyStr.contains "freiburg3" folder_name_lower
  then "535.4 0 320.1 0 0 539.2 247.6 0 0 0 1 0 0 0 0 1"
  else "525.0 0 319.5 0 0 525.0 239.5 0 0 0 1 0 0 0 0 1".

(** The text [generate_info_txt] writes to [info.txt]. *)
Definition generate_info_txt (folder_name : string) : string :=
  ("m_versionNumber = 4" ++ nl
  ++ "m_sensorName = Kinect" ++ nl
  ++ "m_colorWidth = 640" ++ nl
  ++ "m_colorHeight = 480" ++ nl
  ++ "m_depthWidth = 640" ++ nl
  ++ "m_depthHeight = 480" ++ nl
  ++ "m_depthShift = 5000" ++ nl
  ++ "m_calibrationColorIntrinsic = " ++ intrinsics_of folder_name ++ nl
  ++ "m_calibrationColorExtrinsic = 1 0 0 0 0 1 0 0 0 0 1 0 0 0 0 1" ++ nl
  ++ "m_calibrationDepthIntrinsic = " ++ intrinsics_of folder_name ++ nl
  ++ "m_calibrationDepthExtrinsic = 1 0 0 0 0 1 0 0 0 0 1 0 0 0 0 1" ++ nl)%string.

(** The destination directory: scene name, file name, content, in the order
    of writing. *)
Definition dest : Type := list (string * (string * artifact)).

Definition under (scene_name : string) (files : list (string * artifact))
  : dest :=
  map (fun f => (scene_name, f)) files.

(** How [main] ends: what it wrote, and the exception that ended it, if
    any. *)
Definition batch : Type := (dest * option exn)%type.

(** The loop of [main] over [sorted(os.listdir(source_dir))].  An entry of
    the source directory is a scene folder, or [None] for a plain file.  The
    call to [combine_and_rename_files] is not guarded: an exception it
    raises ends the loop and [main]. *)
Fixpoint for_scenes (source_dir : list (string * option scene))
    (margin : float) (names : list string) (out : dest) : batch :=
  match names with
  | [] => (out, None)
  | scene_name :: rest =>
      match lookup scene_name source_dir with
      | Some (Some scene_path) =>
          match combine_and_rename_files scene_path margin with
          | Done s =>
              for_scenes source_dir margin rest
                (out ++ under scene_name
                     (written s
                      ++ [("info.txt",
                           InfoTxt (generate_info_txt scene_name))]))
          | Abort e s => (out ++ under scene_name (written s), Some e)
          end
      | _ => for_scenes source_dir margin rest out
      end
  end.

(** [main(source_dir, dest_dir)]; [None] is a source path that is not a
    directory.  [margin] is the default of [combine_and_rename_files], the
    float literal [0.02]. *)
Definition main (source_dir : option (list (string * option scene)))
    (margin : float) : batch :=
  match source_dir with
  | None => ([], None)
  | Some d => for_scenes d margin (PyStr.sorted (map fst d)) []
  end.

End Synchroniser.

(** ** An implementation of the numeric interface on rationals

    Floats are the rationals they denote, kept in lowest terms, with exact
    arithmetic; [float] reads decimal literals without exponent.  It serves
    to run the definitions above on concrete scenes.  Its differences are
    exact where those of the program are rounded: a run on it is a run of
    the program only where no rounding is involved, and what happens at the
    margin itself is run on [Binary64] below. *)

Module Exact.

Definition digit (c : ascii) : option Z :=
  let n := nat_of_ascii c in
  if ((48 <=? n) && (n <=? 57))%nat then Some (Z.of_nat (n - 48)) else None.

Fixpoint digits (acc : Z) (s : string) : option Z :=
  match s with
  | EmptyString => Some acc
  | String c s' =>
      match digit c with
      | Some d => digits (10 * acc + d)%Z s'
      | None => None
      end
  end.

(** Splits at the first ["."]. *)
Fixpoint cut_at_dot (s : string) : string * option string :=
  match s with
  | EmptyString => (EmptyString, None)
  | String c s' =>
      if Ascii.eqb c "." then (EmptyString, Some s')
      else let (a, b) := cut_at_dot s' in (String c a, b)
  end.

Definition unsigned (s : string) : option Q :=
  let (i, f) := cut_at_dot s in
  let f := match f with Some f => f | None => EmptyString end in
  if (String.length i + String.length f =? 0)%nat then None
  else
    match digits 0 (i ++ f)%string with
    | Some n =>
        Some (Qred (n # Z.to_pos (10 ^ Z.of_nat (String.length f))))
    | None => None
    end.

Definition decimal (s : string) : option Q :=
  match PyStr.strip s with
  | String "-" s' => option_map (fun q => Qred (- q)) (unsigned s')
  | String "+" s' => unsigned s'
  | s' => unsigned s'
  end.

Definition sub (a b : Q) : Q := Qred (a - b).
Definition lt (a b : Q) : bool := negb (Qle_bool b a).
Definition gt (a b : Q) : bool := lt b a.

(** Rotation matrix of the quaternion [(x, y, z, w)] after normalisation,
    row by row. *)
Definition quat_matrix (x y z w : Q) : option (list Q) :=
  let n := (x * x + y * y + z * z + w * w)%Q in
  if Qeq_bool n 0 then None
  else
    Some (map Qred
      [ 1 - 2 * (y * y + z * z) / n; 2 * (x * y - z * w) / n;
        2 * (x * z + y * w) / n;
        2 * (x * y + z * w) / n; 1 - 2 * (x * x + z * z) / n;
        2 * (y * z - x * w) / n;
        2 * (x * z - y * w) / n; 2 * (y * z + x * w) / n;
        1 - 2 * (x * x + y * y) / n ]%Q).

#[export] Instance numeric : Numeric := {|
  float := Q;
  py_float := decimal;
  fsub := sub;
  fabs := Qabs;
  flt := lt;
  fgt := gt;
  feq := Qeq_bool;
  rotation := list Q;
  from_quat := quat_matrix
|}.

End Exact.

(** ** The numeric interface on IEEE 754 double precision

    Python's [float] is binary64.  The operations are those of the
    specification of IEEE 754 arithmetic in the standard library
    ([spec_float], with 53 bits of precision and exponents below 1024),
    rounding to nearest, ties to even.  [float] reads decimal literals
    without exponent and rounds them correctly, as Python does. *)

Module Binary64.

Definition sub (a b : spec_float) : spec_float := SFsub 53 1024 a b.
Definition lt (a b : spec_float) : bool := SFltb a b.
Definition gt (a b : spec_float) : bool := SFltb b a.

(** The double nearest to [n / 10 ^ k], with the sign [s]. *)
Definition quotient (s : bool) (n : Z) (k : nat) : spec_float :=
  match n with
  | Zpos m =>
      SFdiv 53 1024 (S754_finite s m 0)
            (S754_finite false (Z.to_pos (10 ^ Z.of_nat k)) 0)
  | _ => S754_zero s
  end.

Definition unsigned (s : bool) (str : string) : option spec_float :=
  let (i, f) := Exact.cut_at_dot str in
  let f := match f with Some f => f | None => EmptyString end in
  if (String.length i + String.length f =? 0)%nat then None
  else
    match Exact.digits 0 (i ++ f)%string with
    | Some n => Some (quotient s n (String.length f))
    | None => None
    end.

Definition decimal (s : string) : option spec_float :=
  match PyStr.strip s with
  | String "-" s' => unsigned true s'
  | String "+" s' => unsigned false s'
  | s' => unsigned false s'
  end.

(** The squared norm scipy tests before it normalises a quaternion. *)
Definition norm2 (x y z w : spec_float) : spec_float :=
  SFadd 53 1024
    (SFadd 53 1024
       (SFadd 53 1024 (SFmul 53 1024 x x) (SFmul 53 1024 y y))
       (SFmul 53 1024 z z))
    (SFmul 53 1024 w w).

(** A rotation is recorded by the quaternion it is built from: the
    arithmetic of scipy for the entries of the matrix is not modelled. *)
Definition quat (x y z w : spec_float)
  : option (spec_float * spec_float * spec_float * spec_float) :=
  if SFeqb (norm2 x y z w) (S754_zero false) then None
  else Some (x, y, z, w).

#[export] Instance numeric : Numeric := {|
  float := spec_float;
  py_float := decimal;
  fsub := sub;
  fabs := SFabs;
  flt := lt;
  fgt := gt;
  feq := SFeqb;
  rotation := (spec_float * spec_float * spec_float * spec_float)%type;
  from_quat := quat
|}.

(** The double a decimal literal denotes. *)
Definition read (s : string) : spec_float :=
  match decimal s with
  | Some x => x
  | None => S754_nan
  end.

End Binary64.

(** ** Vocabulary of the specification *)

Section Vocabulary.

Context {N : Numeric}.

(** The three file names of the frame with index [i]. *)
Definition frame_files (i : nat) : list string :=
  [ ("frame-" ++ PyStr.fmt_06d i ++ ".color.jpg")%string;
    ("frame-" ++ PyStr.fmt_06d i ++ ".depth.png")%string;
    ("frame-" ++ PyStr.fmt_06d i ++ ".pose.txt")%string ].

(** No entry of the list has a timestamp smaller than the one before it. *)
Fixpoint ts_ascending {P} (l : list (entry P)) : bool :=
  match l with
  | a :: (b :: _) as l' => negb (flt (ts b) (ts a)) && ts_ascending l'
  | _ => true
  end.

Definition numeric (tok : string) : bool :=
  match py_float tok with Some _ => true | None => false end.

(** A pose line as the format asks: eight tokens, all of them numbers. *)
Definition eight_numbers (line : string) : bool :=
  let parts := PyStr.split line in
  (List.length parts =? 8)%nat && forallb numeric parts.

(** The pose payload the transcoder can unpack: seven numbers. *)
Definition seven_numbers (data : list string) : bool :=
  (List.length data =? 7)%nat && forallb numeric data.

(** The first token of a pose line is a number. *)
Definition numeric_head (line : string) : bool :=
  match PyStr.split line with
  | [] => false
  | p0 :: _ => numeric p0
  end.

(** The nearest depth and pose entries of a color entry, when the pools are
    not empty. *)
Definition nearest {P} (c : entry string) (pool : list (entry P))
  : option (entry P) :=
  match pool with
  | [] => None
  | x :: xs => Some (py_min (gap (ts c)) x xs)
  end.

(** The iteration made a frame out of [c], [d] and [p]: both were removed
    from their pools, the counter advanced, and the transcoding ran on the
    state so obtained. *)
Definition accepts (rgb_dir depth_dir : image_dir) (margin : float)
    (c : entry string) (s : state) (d : entry string)
    (p : entry (list string)) : Prop :=
  exists ds' ps',
    py_remove (same_or_equal String.eqb) d (depth_entries s) = Ok ds'
    /\ py_remove (same_or_equal tokens_eqb) p (pose_entries s) = Ok ps'
    /\ body rgb_dir depth_dir margin c s
       = transcode rgb_dir depth_dir
           ("frame-" ++ PyStr.fmt_06d (frame_counter s))%string
           (payload c) d p
           (State ds' ps' (S (frame_counter s)) (written s)
                  (matched s ++ [FrameMatch c d p])).

Definition ctl_state (r : ctl) : state :=
  match r with
  | Completed s | Continue s | Break s | Raised _ s => s
  end.

(** What transcoding the match [fm] under the index [i] writes: all three
    artifacts, or those before the step that raises. *)
Definition frame_output (rgb_dir depth_dir : image_dir) (i : nat)
    (fm : frame_match) : list (string * artifact) :=
  written
    (ctl_state
       (transcode rgb_dir depth_dir ("frame-" ++ PyStr.fmt_06d i)%string
          (payload (fm_color fm)) (fm_depth fm) (fm_pose fm)
          (State [] [] 0 [] []))).

(** The matches with their positions: the [j]-th match made is paired with
    [j], the number of matches made before it. *)
Definition indexed (l : list frame_match) : list (nat * frame_match) :=
  combine (seq 0 (List.length l)) l.

Definition outputs (rgb_dir depth_dir : image_dir)
    (l : list (nat * frame_match)) : list (string * artifact) :=
  flat_map (fun x => frame_output rgb_dir depth_dir (fst x) (snd x)) l.

(** The ways an iteration can end. *)
Inductive step (rgb_dir depth_dir : image_dir) (c : entry string)
    (s : state) : ctl -> Prop :=
| step_break : step rgb_dir depth_dir c s (Break s)
| step_continue : step rgb_dir depth_dir c s (Continue s)
| step_remove e s' :
    frame_counter s' = frame_counter s -> written s' = written s ->
    matched s' = matched s ->
    step rgb_dir depth_dir c s (Raised e s')
| step_match d p ds' ps' :
    nearest c (depth_entries s) = Some d ->
    nearest c (pose_entries s) = Some p ->
    py_remove (same_or_equal String.eqb) d (depth_entries s) = Ok ds' ->
    py_remove (same_or_equal tokens_eqb) p (pose_entries s) = Ok ps' ->
    step rgb_dir depth_dir c s
      (transcode rgb_dir depth_dir
         ("frame-" ++ PyStr.fmt_06d (frame_counter s))%string (payload c) d p
         (State ds' ps' (S (frame_counter s)) (written s)
                (matched s ++ [FrameMatch c d p]))).

(** The counter counts the matches, and the output folder holds, match by
    match, what transcoding the match under its position wrote. *)
Definition counted (rgb_dir depth_dir : image_dir) (s : state) : Prop :=
  frame_counter s = List.length (matched s)
  /\ written s = outputs rgb_dir depth_dir (indexed (matched s)).

(** The names in the output folder are those of the frames below the
    counter, three per frame. *)
Definition complete (s : state) : Prop :=
  map fst (written s) = flat_map frame_files (seq 0 (frame_counter s)).

(** Nothing is lost and nothing is used twice: the entries given to the
    matches made so far, together with those left in the pool, are the
    entries the loop started with. *)
Definition conserved (ds0 : list (entry string))
    (ps0 : list (entry (list string))) (s : state) : Prop :=
  Permutation (map fm_depth (matched s) ++ depth_entries s) ds0
  /\ Permutation (map fm_pose (matched s) ++ pose_entries s) ps0.

(** A timestamp difference within the margin, the margin included. *)
Definition within (margin x : float) : Prop :=
  feq x margin = true \/ fgt x margin = false.

End Vocabulary.

(** ** Concrete scenes, on the rational implementation *)

Module Scenes.

Import Exact.

Definition px (l : list Z) : option image := Some l.

Definition line (s : string) : string := (s ++ nl)%string.

Definition margin : Q := 1 # 50.

Definition color (i : nat) (t : Q) (f : string) : entry string := Entry i t f.

(** One depth frame between two color frames, both within the margin. *)
Definition shared_depth : scene :=
  Scene (Some [("1.00.png", px [7%Z]); ("1.01.png", px [8%Z])])
        (Some [("1.005.png", px [5000%Z; 4999%Z])])
        (Some [line "# timestamp tx ty tz qx qy qz qw";
               line "1.00 1.0 2.0 3.0 0 0 0 1";
               line "1.01 1.0 2.0 3.0 0 0 0 1"]).

(** Stems of different lengths. *)
Definition uneven_names : list string := ["9.5.png"; "10.5.png"].

(** A pose log whose first line is not a pose. *)
Definition bad_log : scene :=
  Scene (Some [("1.00.png", px [7%Z])])
        (Some [("1.00.png", px [5000%Z])])
        (Some [line "not-a-number 1 2 3 0 0 0 1"]).

Definition good : scene :=
  Scene (Some [("2.00.png", px [7%Z])])
        (Some [("2.00.png", px [5000%Z])])
        (Some [line "2.00 1.0 2.0 3.0 0 0 0 1"]).

Definition two_scenes : list (string * option scene) :=
  [("scene_b", Some good); ("scene_a", Some bad_log)].

(** Pose lines with too few tokens, and with a component that is no
    number. *)
Definition short_log : list string :=
  [line "1.00 1.0 2.0"; line "2.00 x 2.0 3.0 0 0 0 1"].

Definition depth_at (i : nat) (t : Q) (f : string) : entry string :=
  Entry i t f.

Definition pose_at (i : nat) (t : Q) : entry (list string) :=
  Entry i t ["1.0"; "2.0"; "3.0"; "0"; "0"; "0"; "1"].

(** Five color frames; the second and the fourth have no depth frame within
    the margin. *)
Definition five_colors : scene :=
  Scene (Some [("1.0.png", px [1%Z]); ("2.0.png", px [2%Z]);
               ("3.0.png", px [3%Z]); ("4.0.png", px [4%Z]);
               ("5.0.png", px [5%Z])])
        (Some [("1.0.png", px [10%Z]); ("3.0.png", px [30%Z]);
               ("5.0.png", px [50%Z])])
        (Some [line "1.0 1.0 2.0 3.0 0 0 0 1";
               line "2.0 1.0 2.0 3.0 0 0 0 1";
               line "3.0 1.0 2.0 3.0 0 0 0 1";
               line "4.0 1.0 2.0 3.0 0 0 0 1";
               line "5.0 1.0 2.0 3.0 0 0 0 1"]).

(** A pool state with a depth frame far from the color frame and no pose
    left. *)
Definition no_pose_far_depth : state :=
  State [depth_at 0 5 "5.00.png"] [] 0 [] [].

Definition no_pose_near_depth : state :=
  State [depth_at 0 1 "1.00.png"] [] 0 [] [].

Definition no_depth : state :=
  State [] [pose_at 0 1] 0 [] [].

(** Depth within the margin, pose beyond it. *)
Definition pose_too_far : state :=
  State [depth_at 0 (101 # 100) "1.01.png"] [pose_at 0 (103 # 100)] 0 [] [].

Definition depth_too_far : state :=
  State [depth_at 0 (103 # 100) "1.03.png"] [pose_at 0 1] 0 [] [].

Definition files : image_dir :=
  [("1.00.png", px [7%Z]); ("1.02.png", px [5000%Z]);
   ("1.01.png", px [4999%Z]); ("1.03.png", px [1%Z]);
   ("1.005.png", px [5000%Z; 4999%Z])].

(** The entries of [shared_depth], as the loader builds them. *)
Definition shared_colors : list (entry string) :=
  [color 0 1 "1.00.png"; color 1 (101 # 100) "1.01.png"].

Definition shared_depths : list (entry string) :=
  [depth_at 0 (201 # 200) "1.005.png"].

Definition shared_poses : list (entry (list string)) :=
  [pose_at 0 1; pose_at 1 (101 # 100)].

(** A comment line that does not begin in the first column. *)
Definition indented_log : list string :=
  [line "  # timestamp tx ty tz qx qy qz qw";
   line "1.00 1.0 2.0 3.0 0 0 0 1"].

End Scenes.

(** ** Concrete scenes on double precision *)

Module Scenes64.

Import Binary64.

(** The default margin of [combine_and_rename_files], the literal [0.02]. *)
Definition margin : spec_float := read "0.02".

Definition at_time (i : nat) (t : string) (f : string) : entry string :=
  Entry i (read t) f.

Definition pose_at_time (i : nat) (t : string) : entry (list string) :=
  Entry i (read t) ["1.0"; "2.0"; "3.0"; "0"; "0"; "0"; "1"].

Definition images : image_dir :=
  [("0.02.png", Some [7%Z]); ("0.04.png", Some [5000%Z]);
   ("1.00.png", Some [8%Z]); ("1.02.png", Some [4999%Z])].

(** A depth frame at 0.04 and a pose at 0.00, for a color frame at 0.02:
    in double precision both differences are the double 0.02 itself. *)
Definition at_margin : state :=
  State [at_time 0 "0.04" "0.04.png"] [pose_at_time 0 "0.00"] 0 [] [].

(** A depth frame at 1.02 and a pose at 1.00, for a color frame at 1.00:
    the decimal timestamps are 0.02 apart, but the double 1.02 minus the
    double 1.00 is a double above the double 0.02. *)
Definition rounded_above_margin : state :=
  State [at_time 0 "1.02" "1.02.png"] [pose_at_time 0 "1.00"] 0 [] [].

End Scenes64.

(** ** Vocabulary for the further properties *)

(** [l1] is [l2] with some items left out, the order kept. *)
Inductive subseq {A : Type} : list A -> list A -> Prop :=
| subseq_nil : subseq [] []
| subseq_skip x l1 l2 : subseq l1 l2 -> subseq l1 (x :: l2)
| subseq_take x l1 l2 : subseq l1 l2 -> subseq (x :: l1) (x :: l2).

Section MoreVocabulary.

Context {N : Numeric}.

(** Both partners of the match are no further than the margin from its
    color entry. *)
Definition close_match (margin : float) (fm : frame_match) : Prop :=
  fgt (gap (ts (fm_color fm)) (fm_depth fm)) margin = false
  /\ fgt (gap (ts (fm_color fm)) (fm_pose fm)) margin = false.



(** [name] contains [key] somewhere, letter case aside. *)
Definition mentions (key name : string) : Prop :=
  exists a t b, name = (a ++ t ++ b)%string /\ PyStr.lower t = key.

(** The scene folders of a source directory, in the order [main] visits
    them. *)
Definition scene_dirs (source_dir : list (string * option scene))
  : list (string * scene) :=
  flat_map (fun name =>
              match lookup name source_dir with
              | Some (Some sc) => [(name, sc)]
              | _ => []
              end)
           (PyStr.sorted (map fst source_dir)).

(** What one turn of the loop of [main] leaves in the destination for a
    scene whose conversion returns: the converted frames, then the
    manifest. *)
Definition scene_output (margin : float) (x : string * scene) : dest :=
  under (fst x)
        (written (final (combine_and_rename_files (snd x) margin))
         ++ [("info.txt", InfoTxt (generate_info_txt (fst x)))]).

End MoreVocabulary.

(** ** Further concrete scenes *)

Module MoreScenes.

Import Exact Scenes.




(** Three depth frames around a color frame at time 1. *)
Definition three_depths : list (entry string) :=
  [depth_at 0 (9 # 10) "0.90.png"; depth_at 1 (101 # 100) "1.01.png";
   depth_at 2 (11 # 10) "1.10.png"].

(** A source directory with a scene in order, a plain file and a folder
    that is no scene. *)
Definition mixed_batch : list (string * option scene) :=
  [("scene_b"%string, Some good); ("notes.txt"%string, None);
   ("empty"%string, Some (Scene None None None))].

End MoreScenes.

(** * Properties *)

(** ** Strings: order and sorting *)

Module PyStrFacts.

Import PyStr.

Lemma ascii_compare_refl (a : ascii) : Ascii.compare a a = Eq.
Proof. unfold Ascii.compare. apply N.compare_refl. Qed.

Lemma ascii_lt_trans (a b c : ascii) :
  Ascii.compare a b = Lt -> Ascii.compare b c = Lt -> Ascii.compare a c = Lt.
Proof.
  unfold Ascii.compare. rewrite !N.compare_lt_iff. apply N.lt_trans.
Qed.

Lemma compare_lt_trans (a : string) :
  forall b c, String.compare a b = Lt -> String.compare b c = Lt ->
              String.compare a c = Lt.
Proof.
  induction a as [|x a IH]; intros [|y b] [|z c]; simpl; try congruence.
  destruct (Ascii.compare x y) eqn:Hxy; try discriminate;
    destruct (Ascii.compare y z) eqn:Hyz; try discriminate; intros Hab Hbc.
  - apply Ascii.compare_eq_iff in Hxy, Hyz. subst.
    rewrite ascii_compare_refl. eauto.
  - apply Ascii.compare_eq_iff in Hxy. subst. now rewrite Hyz.
  - apply Ascii.compare_eq_iff in Hyz. subst. now rewrite Hxy.
  - now rewrite (ascii_lt_trans _ _ _ Hxy Hyz).
Qed.

Lemma compare_refl (a : string) : String.compare a a = Eq.
Proof.
  induction a as [|x a IH]; simpl; [reflexivity|].
  now rewrite ascii_compare_refl.
Qed.

Lemma leb_iff (a b : string) :
  String.leb a b = true <-> String.compare a b = Lt \/ a = b.
Proof.
  unfold String.leb. split.
  - destruct (String.compare a b) eqn:H; try discriminate; intros _.
    + right. now apply String.compare_eq_iff.
    + now left.
  - intros [H | ->]; [now rewrite H | now rewrite compare_refl].
Qed.

Lemma leb_trans (a b c : string) :
  String.leb a b = true -> String.leb b c = true -> String.leb a c = true.
Proof.
  rewrite !leb_iff. intros [Hab | ->] [Hbc | ->]; auto.
  left. eapply compare_lt_trans; eauto.
Qed.

Lemma ltb_false_leb (a b : string) :
  String.ltb a b = false -> String.leb b a = true.
Proof.
  unfold String.ltb, String.leb. rewrite (String.compare_antisym a b).
  destruct (String.compare b a); simpl; congruence.
Qed.

Lemma ltb_true_leb (a b : string) :
  String.ltb a b = true -> String.leb a b = true.
Proof.
  unfold String.ltb, String.leb. destruct (String.compare a b); congruence.
Qed.

Lemma insert_perm (x : string) (l : list string) :
  Permutation (insert x l) (x :: l).
Proof.
  induction l as [|y l IH]; simpl; [reflexivity|].
  destruct (String.ltb y x); [|reflexivity].
  rewrite IH. apply perm_swap.
Qed.

Lemma sorted_perm (l : list string) : Permutation (sorted l) l.
Proof.
  induction l as [|x l IH]; simpl; [reflexivity|].
  unfold sorted in IH. rewrite insert_perm. now constructor.
Qed.

Lemma insert_sorted (x : string) (l : list string) :
  StronglySorted le l -> StronglySorted le (insert x l).
Proof.
  induction 1 as [|y l Hl IH Hy]; simpl.
  - repeat constructor.
  - destruct (String.ltb y x) eqn:Hyx.
    + constructor; [exact IH|].
      rewrite Forall_forall. intros z Hz.
      apply (Permutation_in _ (insert_perm x l)) in Hz.
      destruct Hz as [<- | Hz].
      * now apply ltb_true_leb.
      * rewrite Forall_forall in Hy. now apply Hy.
    + assert (Hxy : le x y) by now apply ltb_false_leb.
      constructor; [now constructor|].
      constructor; [exact Hxy|].
      rewrite Forall_forall in Hy |- *. intros z Hz.
      eapply leb_trans; [exact Hxy | now apply Hy].
Qed.

Lemma sorted_sorted (l : list string) : StronglySorted le (sorted l).
Proof.
  induction l as [|x l IH]; simpl; [constructor|].
  now apply insert_sorted.
Qed.

(** Blank strings, stripping and splitting. *)

Lemma rstrip_blank (s : string) : blank (rstrip s) = true -> rstrip s = "".
Proof.
  induction s as [|c s IH]; simpl; [reflexivity|].
  destruct (rstrip s) as [|c' r] eqn:Hr.
  - destruct (is_space c) eqn:Hc; [reflexivity|].
    simpl. rewrite Hc. discriminate.
  - simpl. intros H. apply andb_true_iff in H as [_ H].
    specialize (IH H). discriminate.
Qed.

Lemma split_nil_blank (s : string) : split s = [] -> blank s = true.
Proof.
  induction s as [|c s IH]; simpl; [reflexivity|].
  destruct (is_space c); simpl; [exact IH|].
  destruct s as [|c' s']; [discriminate|].
  destruct (is_space c'); [discriminate|].
  destruct (split (String c' s')); discriminate.
Qed.

Lemma split_strip_nonempty (s : string) :
  truthy (strip s) = true -> split (strip s) <> [].
Proof.
  unfold strip. intros H Hs.
  apply split_nil_blank, rstrip_blank in Hs. rewrite Hs in H. discriminate.
Qed.

Lemma rstrip_head (c : ascii) (s : string) :
  is_space c = false -> exists r, rstrip (String c s) = String c r.
Proof.
  intros Hc. simpl. destruct (rstrip s) as [|c' r].
  - rewrite Hc. now exists "".
  - now exists (String c' r).
Qed.

Lemma split_head (c : ascii) (s : string) :
  is_space c = false -> exists t ts, split (String c s) = String c t :: ts.
Proof.
  intros Hc. simpl. rewrite Hc.
  destruct s as [|c' s']; [now exists "", []|].
  destruct (is_space c'); [now exists "", (split (String c' s'))|].
  destruct (split (String c' s')) as [|t ts]; [now exists "", []|].
  now exists t, ts.
Qed.

Lemma lstrip_skip (w rest : string) :
  blank w = true -> lstrip (w ++ rest) = lstrip rest.
Proof.
  induction w as [|c w IH]; simpl; [reflexivity|].
  intros H. apply andb_true_iff in H as [Hc Hw]. rewrite Hc. auto.
Qed.

(** The six-digit index. *)

Lemma read_zeros (k : nat) (s : string) :
  read_index (zeros k ++ s) = read_index s.
Proof.
  unfold read_index. induction k as [|k IH]; simpl; [reflexivity|].
  destruct (NilEmpty.uint_of_string (zeros k ++ s)) as [d|] eqn:E;
    destruct (NilEmpty.uint_of_string s) as [d'|]; simpl in *;
    try discriminate; auto.
Qed.

Lemma read_digits (d : Decimal.uint) :
  read_index (NilZero.string_of_uint d) = Some (Nat.of_uint d).
Proof.
  unfold read_index, NilZero.string_of_uint.
  destruct d; try (rewrite NilEmpty.usu; reflexivity). reflexivity.
Qed.

Lemma length_zeros (k : nat) : String.length (zeros k) = k.
Proof. induction k; simpl; auto. Qed.

Lemma fmt_06d_index (n : nat) : read_index (fmt_06d n) = Some n.
Proof.
  unfold fmt_06d. rewrite read_zeros, read_digits.
  now rewrite DecimalNat.Unsigned.of_to.
Qed.

Lemma length_append (a b : string) :
  String.length (a ++ b) = String.length a + String.length b.
Proof. induction a as [|c a IH]; simpl; auto. Qed.

Lemma fmt_06d_width (n : nat) : 6 <= String.length (fmt_06d n).
Proof.
  unfold fmt_06d. rewrite length_append, length_zeros. lia.
Qed.

Lemma fmt_06d_inj (n m : nat) : fmt_06d n = fmt_06d m -> n = m.
Proof.
  intros H. apply (f_equal read_index) in H.
  rewrite !fmt_06d_index in H. congruence.
Qed.

End PyStrFacts.

(** ** Pools: [min], [remove], comprehensions *)

Section PoolFacts.

Context {N : Numeric}.

Lemma py_min_in {A} (key : A -> float) (xs : list A) :
  forall x, In (py_min key x xs) (x :: xs).
Proof.
  unfold py_min. induction xs as [|y xs IH]; intros x; simpl; [now left|].
  destruct (flt (key y) (key x)).
  - right. apply IH.
  - destruct (IH x) as [H | H]; [now left | now right; right].
Qed.

Lemma py_remove_present {A} (eqb : A -> A -> bool) (x : A) (l : list A) :
  (forall y, eqb y y = true) -> In x l -> exists l', py_remove eqb x l = Ok l'.
Proof.
  intros Hrefl. induction l as [|y l IH]; simpl; [tauto|].
  intros [-> | Hin].
  - rewrite Hrefl. eauto.
  - destruct (eqb y x); [eauto|].
    destruct (IH Hin) as [l' ->]. simpl. eauto.
Qed.

Lemma same_or_equal_refl {P} (peqb : P -> P -> bool) (e : entry P) :
  same_or_equal peqb e e = true.
Proof. unfold same_or_equal. now rewrite Nat.eqb_refl. Qed.

Lemma comprehension_ok {A B} (f : A -> result B) (l : list A) :
  (forall x, In x l -> exists y, f x = Ok y) ->
  exists ys, comprehension f l = Ok ys /\ Forall2 (fun x y => f x = Ok y) l ys.
Proof.
  induction l as [|x l IH]; simpl; intros H.
  - exists []. split; [reflexivity | constructor].
  - destruct (H x (or_introl eq_refl)) as [y Hy].
    destruct IH as (ys & Hys & Hall); [intros; apply H; now right|].
    rewrite Hy, Hys. simpl. exists (y :: ys). split; [reflexivity|].
    now constructor.
Qed.

Lemma comprehension_raise {A B} (f : A -> result B) (e : exn) (l : list A) :
  (forall x, In x l -> (exists y, f x = Ok y) \/ f x = Raise e) ->
  (exists x, In x l /\ f x = Raise e) ->
  comprehension f l = Raise e.
Proof.
  induction l as [|x l IH]; simpl; intros Hall (x0 & Hin & Hx0); [tauto|].
  destruct (Hall x (or_introl eq_refl)) as [[y Hy] | Hy]; rewrite Hy; simpl;
    [|reflexivity].
  rewrite IH; [reflexivity | intros; apply Hall; now right |].
  destruct Hin as [-> | Hin]; [congruence | eauto].
Qed.

Lemma comprehension_inv {A B} (f : A -> result B) (l : list A) (ys : list B) :
  comprehension f l = Ok ys -> Forall2 (fun x y => f x = Ok y) l ys.
Proof.
  revert ys. induction l as [|x l IH]; simpl; intros ys H.
  - injection H as <-. constructor.
  - destruct (f x) as [y|] eqn:Hy; simpl in H; [|discriminate].
    destruct (comprehension f l) as [ys'|]; simpl in H; [|discriminate].
    injection H as <-. constructor; auto.
Qed.

End PoolFacts.

(** ** The loop body *)

Section BodyFacts.

Context {N : Numeric}.

Variables (rgb_dir depth_dir : image_dir) (margin : float).


Lemma nearest_in {P} (c : entry string) (pool : list (entry P)) (x : entry P) :
  nearest c pool = Some x -> In x pool.
Proof.
  destruct pool as [|y ys]; simpl; [discriminate|].
  intros H. injection H as <-. apply py_min_in.
Qed.

Lemma body_no_depth (c : entry string) (s : state) :
  depth_entries s = [] -> body rgb_dir depth_dir margin c s = Break s.
Proof. intros H. unfold body. now rewrite H. Qed.

Lemma body_depth_far (c : entry string) (s : state) (d : entry string) :
  nearest c (depth_entries s) = Some d ->
  fgt (gap (ts c) d) margin = true ->
  body rgb_dir depth_dir margin c s = Continue s.
Proof.
  unfold nearest, body.
  destruct (depth_entries s) as [|d0 ds]; [discriminate|].
  intros H Hgt. injection H as <-. now rewrite Hgt.
Qed.

Lemma body_no_pose (c : entry string) (s : state) (d : entry string) :
  nearest c (depth_entries s) = Some d ->
  fgt (gap (ts c) d) margin = false ->
  pose_entries s = [] ->
  body rgb_dir depth_dir margin c s = Break s.
Proof.
  unfold nearest, body.
  destruct (depth_entries s) as [|d0 ds]; [discriminate|].
  intros H Hgt Hp. injection H as <-. now rewrite Hgt, Hp.
Qed.

Lemma body_pose_far (c : entry string) (s : state) (d : entry string)
    (p : entry (list string)) :
  nearest c (depth_entries s) = Some d ->
  fgt (gap (ts c) d) margin = false ->
  nearest c (pose_entries s) = Some p ->
  fgt (gap (ts c) p) margin = true ->
  body rgb_dir depth_dir margin c s = Continue s.
Proof.
  unfold nearest, body.
  destruct (depth_entries s) as [|d0 ds]; [discriminate|].
  destruct (pose_entries s) as [|p0 ps]; [discriminate|].
  intros H Hgt H' Hgt'. injection H as <-. injection H' as <-.
  now rewrite Hgt, Hgt'.
Qed.

Lemma body_accepts (c : entry string) (s : state) (d : entry string)
    (p : entry (list string)) :
  nearest c (depth_entries s) = Some d ->
  fgt (gap (ts c) d) margin = false ->
  nearest c (pose_entries s) = Some p ->
  fgt (gap (ts c) p) margin = false ->
  accepts rgb_dir depth_dir margin c s d p.
Proof.
  intros Hd Hgd Hp Hgp.
  destruct (py_remove_present (same_or_equal String.eqb) d (depth_entries s))
    as [ds' Hds']; [apply same_or_equal_refl | eapply nearest_in; eauto |].
  destruct (py_remove_present (same_or_equal tokens_eqb) p (pose_entries s))
    as [ps' Hps']; [apply same_or_equal_refl | eapply nearest_in; eauto |].
  exists ds', ps'. repeat split; auto.
  unfold nearest in Hd, Hp. unfold body.
  destruct (depth_entries s) as [|d0 ds] eqn:Ed; [discriminate|].
  destruct (pose_entries s) as [|p0 ps] eqn:Ep; [discriminate|].
  injection Hd as Hd. injection Hp as Hp. rewrite Hd, Hp, Hgd, Hgp.
  now rewrite Hds', Hps'.
Qed.

(** What the transcoding steps do to a state: they only append to the
    output folder, and what they append does not depend on the state. *)
Lemma transcode_frame (frame_id f : string) (d : entry string)
    (p : entry (list string)) (s : state) :
  let s' := ctl_state (transcode rgb_dir depth_dir frame_id f d p s) in
  depth_entries s' = depth_entries s
  /\ pose_entries s' = pose_entries s
  /\ frame_counter s' = frame_counter s
  /\ matched s' = matched s
  /\ written s'
     = written s
       ++ written (ctl_state (transcode rgb_dir depth_dir frame_id f d p
                                        (State [] [] 0 [] []))).
Proof.
  unfold transcode.
  destruct (open_image rgb_dir f);
    [|simpl; now rewrite app_nil_r].
  destruct (open_image depth_dir (payload d));
    [|simpl; repeat split; reflexivity].
  destruct (unpack_pose (payload p)) as [[[[[[[tx ty] tz] qx] qy] qz] qw]|];
    [|simpl; repeat split; now rewrite <- app_assoc].
  destruct (rotation_of qx qy qz qw);
    simpl; repeat split; now rewrite <- ?app_assoc.
Qed.

Lemma transcode_not_skip (frame_id f : string) (d : entry string)
    (p : entry (list string)) (s s' : state) :
  transcode rgb_dir depth_dir frame_id f d p s <> Continue s'
  /\ transcode rgb_dir depth_dir frame_id f d p s <> Break s'.
Proof.
  unfold transcode.
  destruct (open_image rgb_dir f); [|split; discriminate].
  destruct (open_image depth_dir (payload d)); [|split; discriminate].
  destruct (unpack_pose (payload p)) as [[[[[[[tx ty] tz] qx] qy] qz] qw]|];
    [|split; discriminate].
  destruct (rotation_of qx qy qz qw); split; discriminate.
Qed.

(** When an iteration is completed, all three files of the frame are there. *)
Lemma transcode_completed (frame_id f : string) (d : entry string)
    (p : entry (list string)) (s s' : state) :
  transcode rgb_dir depth_dir frame_id f d p s = Completed s' ->
  map fst (written s')
  = map fst (written s)
    ++ [ (frame_id ++ ".color.jpg")%string; (frame_id ++ ".depth.png")%string;
         (frame_id ++ ".pose.txt")%string ].
Proof.
  unfold transcode.
  destruct (open_image rgb_dir f); [|discriminate].
  destruct (open_image depth_dir (payload d)); [|discriminate].
  destruct (unpack_pose (payload p)) as [[[[[[[tx ty] tz] qx] qy] qz] qw]|];
    [|discriminate].
  destruct (rotation_of qx qy qz qw); [|discriminate].
  intros H. injection H as <-. simpl.
  rewrite !map_app. simpl. now rewrite <- !app_assoc.
Qed.

Lemma body_step (c : entry string) (s : state) :
  step rgb_dir depth_dir c s (body rgb_dir depth_dir margin c s).
Proof.
  unfold body.
  destruct (depth_entries s) as [|d0 ds] eqn:Ed; [constructor|].
  destruct (fgt _ margin); [constructor|].
  destruct (pose_entries s) as [|p0 ps] eqn:Ep; [constructor|].
  destruct (fgt _ margin); [constructor|].
  destruct (py_remove _ _ (d0 :: ds)) as [ds'|e] eqn:Hd;
    [|now constructor].
  destruct (py_remove _ _ (p0 :: ps)) as [ps'|e] eqn:Hp;
    [|now constructor].
  apply step_match; rewrite ?Ed, ?Ep; auto.
Qed.

Lemma continue_same_state (c : entry string) (s s' : state) :
  body rgb_dir depth_dir margin c s = Continue s' -> s' = s.
Proof.
  intros H. destruct (body_step c s) as [| | |d p ds' ps' _ _ _ _];
    try congruence.
  destruct (transcode_not_skip
              ("frame-" ++ PyStr.fmt_06d (frame_counter s))%string
              (payload c) d p
              (State ds' ps' (S (frame_counter s)) (written s)
                     (matched s ++ [FrameMatch c d p])) s'); congruence.
Qed.

Lemma break_same_state (c : entry string) (s s' : state) :
  body rgb_dir depth_dir margin c s = Break s' -> s' = s.
Proof.
  intros H. destruct (body_step c s) as [| | |d p ds' ps' _ _ _ _];
    try congruence.
  destruct (transcode_not_skip
              ("frame-" ++ PyStr.fmt_06d (frame_counter s))%string
              (payload c) d p
              (State ds' ps' (S (frame_counter s)) (written s)
                     (matched s ++ [FrameMatch c d p])) s'); congruence.
Qed.

End BodyFacts.

(** ** The loop: numbering of the frames *)

Section LoopFacts.

Context {N : Numeric}.

Variables (rgb_dir depth_dir : image_dir) (margin : float).

Lemma combine_seq_snoc (l : list frame_match) (fm : frame_match) :
  forall a,
    combine (seq a (List.length (l ++ [fm]))) (l ++ [fm])
    = combine (seq a (List.length l)) l ++ [(a + List.length l, fm)].
Proof.
  induction l as [|x l IH]; intros a; simpl.
  - now rewrite Nat.add_0_r.
  - rewrite IH. now rewrite Nat.add_succ_r.
Qed.

Lemma indexed_snoc (l : list frame_match) (fm : frame_match) :
  indexed (l ++ [fm]) = indexed l ++ [(List.length l, fm)].
Proof. unfold indexed. now rewrite combine_seq_snoc. Qed.

Lemma outputs_snoc (l : list (nat * frame_match)) (i : nat)
    (fm : frame_match) :
  outputs rgb_dir depth_dir (l ++ [(i, fm)])
  = outputs rgb_dir depth_dir l ++ frame_output rgb_dir depth_dir i fm.
Proof.
  unfold outputs. rewrite flat_map_app. simpl. now rewrite app_nil_r.
Qed.

Lemma body_counted (c : entry string) (s : state) :
  counted rgb_dir depth_dir s -> counted rgb_dir depth_dir (ctl_state (body rgb_dir depth_dir margin c s)).
Proof.
  intros [Hc Hw].
  destruct (body_step rgb_dir depth_dir margin c s)
    as [| |e s' H1 H2 H3|d p ds' ps' _ _ _ _]; simpl; try (split; assumption).
  - split; congruence.
  - match goal with |- counted rgb_dir depth_dir (ctl_state (transcode _ _ ?fid ?f _ _ ?s0)) =>
      destruct (transcode_frame rgb_dir depth_dir fid f d p s0)
        as (_ & _ & H3 & H4 & H5)
    end.
    simpl in H3, H4, H5. split.
    + rewrite H3, H4, length_app. simpl. lia.
    + rewrite H5, H4, indexed_snoc, outputs_snoc, <- Hw.
      unfold frame_output. simpl. now rewrite Hc.
Qed.

Lemma body_complete (c : entry string) (s s' : state) :
  complete s -> body rgb_dir depth_dir margin c s = Completed s' ->
  complete s'.
Proof.
  unfold complete. intros Hs Hb.
  pose proof (body_step rgb_dir depth_dir margin c s) as Hstep.
  rewrite Hb in Hstep.
  inversion Hstep as [| | |d p ds' ps' _ _ _ _ Ht].
  pose proof (transcode_completed _ _ _ _ _ _ _ _ Ht) as Hn.
  match type of Ht with
  | transcode _ _ ?fid ?f _ _ ?s0 = _ =>
      pose proof (transcode_frame rgb_dir depth_dir fid f d p s0)
        as (_ & _ & Hk & _)
  end.
  rewrite Ht in Hk. simpl in Hk, Hn.
  rewrite Hn, Hk, Hs, seq_S, flat_map_app. reflexivity.
Qed.

Lemma for_rgb_counted (rgb_entries : list (entry string)) :
  forall s,
    counted rgb_dir depth_dir s -> complete s ->
    match for_rgb rgb_dir depth_dir margin rgb_entries s with
    | Done s' => counted rgb_dir depth_dir s' /\ complete s'
    | Abort _ s' => counted rgb_dir depth_dir s'
    end.
Proof.
  induction rgb_entries as [|c rest IH]; intros s Hc Hn; simpl; [now split|].
  pose proof (body_counted c s Hc) as Hc'.
  destruct (body rgb_dir depth_dir margin c s) as [s'|s'|s'|e s'] eqn:Hb;
    simpl in Hc'.
  - apply IH; [exact Hc' | eapply body_complete; eauto].
  - apply continue_same_state in Hb. subst. now apply IH.
  - apply break_same_state in Hb. subst. now split.
  - exact Hc'.
Qed.

(** Once a pool is empty the loop makes no further frame. *)
Lemma for_rgb_no_pose (rgb_entries : list (entry string)) (s : state) :
  pose_entries s = [] ->
  for_rgb rgb_dir depth_dir margin rgb_entries s = Done s.
Proof.
  intros Hp. induction rgb_entries as [|c rest IH]; simpl; [reflexivity|].
  unfold body. rewrite Hp.
  destruct (depth_entries s) as [|d0 ds]; [reflexivity|].
  destruct (fgt _ margin); [exact IH | reflexivity].
Qed.

End LoopFacts.

(** ** The claims that hold for every implementation of the interface *)

Section Claims.

Context {N : Numeric}.

Variables (rgb_dir depth_dir : image_dir) (margin : float).

(** C2 (no partial consumption).  A color entry that is skipped, because its
    nearest depth entry is beyond the margin or because its nearest pose
    entry is, ends its iteration in the very state it started from: neither
    pool changes, the depth candidate is still in its pool, and the next
    color entry is tried on the same pools. *)
Theorem no_partial_consumption (c : entry string) (s : state)
    (d : entry string) :
  nearest c (depth_entries s) = Some d ->
  fgt (gap (ts c) d) margin = true
  \/ (fgt (gap (ts c) d) margin = false
      /\ exists p, nearest c (pose_entries s) = Some p
                   /\ fgt (gap (ts c) p) margin = true) ->
  body rgb_dir depth_dir margin c s = Continue s
  /\ depth_entries (ctl_state (body rgb_dir depth_dir margin c s))
     = depth_entries s
  /\ pose_entries (ctl_state (body rgb_dir depth_dir margin c s))
     = pose_entries s
  /\ In d (depth_entries s)
  /\ forall rest,
       for_rgb rgb_dir depth_dir margin (c :: rest) s
       = for_rgb rgb_dir depth_dir margin rest s.
Proof.
  intros Hd Hskip.
  assert (Hb : body rgb_dir depth_dir margin c s = Continue s).
  { destruct Hskip as [Hfar | (Hnear & p & Hp & Hfar)].
    - eapply body_depth_far; eauto.
    - eapply body_pose_far; eauto. }
  rewrite Hb. simpl. repeat split; auto.
  - eapply nearest_in; eauto.
  - intros rest. now rewrite Hb.
Qed.

(** C7 (frame index contiguity).  Whatever the color entries and the pools,
    the counter equals the number of matches made, the output folder holds
    for the j-th match (counting from 0) what its transcoding wrote under
    the index j, and when the loop ends without an exception the file names
    are those of the frames 0, 1, ..., k-1, where k is the number of
    matches.  The index is printed on at least six digits, padded with
    zeros, and reads back as the same number. *)
Theorem frame_index_contiguity (rgb_entries : list (entry string))
    (ds : list (entry string)) (ps : list (entry (list string))) :
  let r := for_rgb rgb_dir depth_dir margin rgb_entries (initial ds ps) in
  let k := List.length (matched (final r)) in
  frame_counter (final r) = k
  /\ written (final r)
     = outputs rgb_dir depth_dir (combine (seq 0 k) (matched (final r)))
  /\ match r with
     | Done s => map fst (written s) = flat_map frame_files (seq 0 k)
     | Abort _ _ => True
     end
  /\ forall i, PyStr.read_index (PyStr.fmt_06d i) = Some i
               /\ 6 <= String.length (PyStr.fmt_06d i).
Proof.
  intros r k.
  assert (Hfmt : forall i, PyStr.read_index (PyStr.fmt_06d i) = Some i
                           /\ 6 <= String.length (PyStr.fmt_06d i)).
  { intros i. split;
      [apply PyStrFacts.fmt_06d_index | apply PyStrFacts.fmt_06d_width]. }
  pose proof (for_rgb_counted rgb_dir depth_dir margin rgb_entries
                (initial ds ps)) as H.
  fold r in H. subst k.
  destruct r as [s|e s]; simpl.
  - destruct H as [[Hc Hw] Hn]; [now split | reflexivity |].
    split; [exact Hc|]. split; [exact Hw|]. split; [|exact Hfmt].
    unfold complete in Hn. now rewrite <- Hc.
  - destruct H as [Hc Hw]; [now split | reflexivity |].
    split; [exact Hc|]. split; [exact Hw|]. split; [exact I | exact Hfmt].
Qed.


(** C9, as the code has it (stream exhaustion).  With an empty depth pool
    the iteration breaks at once.  With an empty pose pool the iteration
    breaks when the nearest depth entry is within the margin and skips the
    color entry otherwise; either way the loop ends in the state it was in:
    no further frame is made and the frames made so far are the result. *)
Theorem exhaustion_ends_the_scene (c : entry string)
    (rest : list (entry string)) (s : state) :
  depth_entries s = [] \/ pose_entries s = [] ->
  for_rgb rgb_dir depth_dir margin (c :: rest) s = Done s
  /\ match nearest c (depth_entries s) with
     | None => body rgb_dir depth_dir margin c s = Break s
     | Some d =>
         body rgb_dir depth_dir margin c s
         = if fgt (gap (ts c) d) margin then Continue s else Break s
     end.
Proof.
  intros [Hd | Hp].
  - split.
    + simpl. now rewrite body_no_depth.
    + rewrite Hd. simpl. now apply body_no_depth.
  - split; [now apply for_rgb_no_pose|].
    destruct (nearest c (depth_entries s)) as [d|] eqn:Hn.
    + destruct (fgt (gap (ts c) d) margin) eqn:Hg.
      * eapply body_depth_far; eauto.
      * eapply body_no_pose; eauto.
    + apply body_no_depth. unfold nearest in Hn.
      destruct (depth_entries s); [reflexivity | discriminate].
Qed.

End Claims.

(** ** The claims that rest on laws of float comparison

    The laws below hold of IEEE 754 binary64 comparison, NaN included:
    nothing is smaller than itself; if [c < b] and not [a < b] then not
    [a < c] (when [a] is NaN it is smaller than nothing, otherwise
    [a >= b > c]); equal timestamps give gaps that compare alike; equal
    values are not greater than one another. *)

Section Laws.

Context {N : Numeric}.

Hypothesis lt_irrefl : forall a, flt a a = false.
Hypothesis lt_keep :
  forall a b c, flt c b = true -> flt a b = false -> flt a c = false.
Hypothesis eq_gap :
  forall t t', feq t t' = true ->
  forall c x, flt (fabs (fsub c t)) x = flt (fabs (fsub c t')) x.
Hypothesis gt_eq : forall a b, feq a b = true -> fgt a b = false.

(** [min] returns an item that no earlier item of the list can be confused
    with: for each earlier item some bound separates the two keys. *)
Lemma fold_min_first {A} (key : A -> float) (xs : list A) :
  forall (pre : list A) (b : A) (l1 l2 : list A),
    pre = l1 ++ b :: l2 ->
    (forall y, In y l1 ->
       exists z, flt (key y) z = false /\ flt (key b) z = true) ->
    (forall y, In y pre -> flt (key y) (key b) = false) ->
    exists l1' l2',
      pre ++ xs = l1' ++ py_min key b xs :: l2'
      /\ forall y, In y l1' ->
           exists z, flt (key y) z = false /\ flt (key (py_min key b xs)) z = true.
Proof.
  unfold py_min.
  induction xs as [|y xs IH]; intros pre b l1 l2 Hpre Hsep Hmin; simpl.
  - exists l1, l2. rewrite app_nil_r. auto.
  - destruct (flt (key y) (key b)) eqn:Hy.
    + destruct (IH (pre ++ [y]) y pre []) as (l1' & l2' & Heq & Hsep').
      * reflexivity.
      * intros y' Hy'. exists (key b). auto.
      * intros y' Hy'. apply in_app_or in Hy' as [Hy' | [<- | []]].
        -- eapply lt_keep; eauto.
        -- apply lt_irrefl.
      * exists l1', l2'. rewrite <- Heq, <- app_assoc. auto.
    + destruct (IH (pre ++ [y]) b l1 (l2 ++ [y])) as (l1' & l2' & Heq & Hsep').
      * rewrite Hpre, <- app_assoc. reflexivity.
      * exact Hsep.
      * intros y' Hy'. apply in_app_or in Hy' as [Hy' | [<- | []]]; auto.
      * exists l1', l2'. rewrite <- Heq, <- app_assoc. auto.
Qed.

Lemma min_first {A} (key : A -> float) (x : A) (xs : list A) :
  exists l1 l2,
    x :: xs = l1 ++ py_min key x xs :: l2
    /\ forall y, In y l1 ->
         exists z, flt (key y) z = false /\ flt (key (py_min key x xs)) z = true.
Proof.
  apply (fold_min_first key xs [x] x [] []).
  - reflexivity.
  - intros y [].
  - intros y [<- | []]. apply lt_irrefl.
Qed.

Lemma py_remove_first {A} (eqb : A -> A -> bool) (e : A) (l1 l2 : list A) :
  (forall y, In y l1 -> eqb y e = false) -> eqb e e = true ->
  py_remove eqb e (l1 ++ e :: l2) = Ok (l1 ++ l2).
Proof.
  intros Hl1 He. induction l1 as [|y l1 IH]; simpl.
  - now rewrite He.
  - rewrite (Hl1 y (or_introl eq_refl)).
    rewrite IH; [reflexivity | intros; apply Hl1; now right].
Qed.

(** [remove] takes out of the pool the very entry [min] returned. *)
Lemma remove_nearest {P} (peqb : P -> P -> bool) (c : entry string)
    (pool : list (entry P)) (e : entry P) :
  NoDup (map oid pool) -> nearest c pool = Some e ->
  exists l1 l2,
    pool = l1 ++ e :: l2
    /\ py_remove (same_or_equal peqb) e pool = Ok (l1 ++ l2).
Proof.
  intros Hnd Hn. destruct pool as [|x xs]; [discriminate|].
  simpl in Hn. injection Hn as <-.
  destruct (min_first (gap (ts c)) x xs) as (l1 & l2 & Heq & Hsep).
  exists l1, l2. split; [exact Heq|].
  rewrite Heq at 1. apply py_remove_first; [|apply same_or_equal_refl].
  intros y Hy. unfold same_or_equal.
  apply orb_false_iff. split.
  - apply Nat.eqb_neq. intros Hoid.
    rewrite Heq, map_app in Hnd. simpl in Hnd.
    apply NoDup_remove_2 in Hnd. apply Hnd, in_or_app. left.
    rewrite <- Hoid. now apply in_map.
  - destruct (feq (ts y) (ts (py_min (gap (ts c)) x xs))) eqn:Hfeq;
      [|reflexivity].
    destruct (Hsep y Hy) as (z & Hz1 & Hz2).
    pose proof (eq_gap _ _ Hfeq (ts c) z) as Hsame.
    change (flt (gap (ts c) y) z
            = flt (gap (ts c) (py_min (gap (ts c)) x xs)) z) in Hsame.
    congruence.
Qed.

Lemma conserved_pools (ds0 : list (entry string))
    (ps0 : list (entry (list string))) (s : state) :
  NoDup (map oid ds0) -> NoDup (map oid ps0) -> conserved ds0 ps0 s ->
  NoDup (map oid (depth_entries s)) /\ NoDup (map oid (pose_entries s)).
Proof.
  intros Hd Hp [Cd Cp]. split.
  - apply (Permutation_map oid), Permutation_sym in Cd.
    apply (Permutation_NoDup Cd) in Hd. rewrite map_app in Hd.
    now apply NoDup_app_remove_l in Hd.
  - apply (Permutation_map oid), Permutation_sym in Cp.
    apply (Permutation_NoDup Cp) in Hp. rewrite map_app in Hp.
    now apply NoDup_app_remove_l in Hp.
Qed.

Lemma conserved_matched (ds0 : list (entry string))
    (ps0 : list (entry (list string))) (s : state) :
  NoDup (map oid ds0) -> NoDup (map oid ps0) -> conserved ds0 ps0 s ->
  NoDup (map oid (map fm_depth (matched s)))
  /\ NoDup (map oid (map fm_pose (matched s))).
Proof.
  intros Hd Hp [Cd Cp]. split.
  - apply (Permutation_map oid), Permutation_sym in Cd.
    apply (Permutation_NoDup Cd) in Hd. rewrite map_app in Hd.
    now apply NoDup_app_remove_r in Hd.
  - apply (Permutation_map oid), Permutation_sym in Cp.
    apply (Permutation_NoDup Cp) in Hp. rewrite map_app in Hp.
    now apply NoDup_app_remove_r in Hp.
Qed.

Lemma body_conserves (rgb_dir depth_dir : image_dir) (margin : float)
    (ds0 : list (entry string)) (ps0 : list (entry (list string)))
    (c : entry string) (s : state) :
  NoDup (map oid ds0) -> NoDup (map oid ps0) -> conserved ds0 ps0 s ->
  conserved ds0 ps0 (ctl_state (body rgb_dir depth_dir margin c s)).
Proof.
  intros Hd Hp Hc.
  destruct (conserved_pools ds0 ps0 s Hd Hp Hc) as [Nd Np].
  destruct (nearest c (depth_entries s)) as [d|] eqn:Hnd;
    [|unfold nearest in Hnd; destruct (depth_entries s) eqn:E;
      [rewrite body_no_depth; auto | discriminate]].
  destruct (fgt (gap (ts c) d) margin) eqn:Hgd;
    [erewrite body_depth_far; eauto|].
  destruct (nearest c (pose_entries s)) as [p|] eqn:Hnp;
    [|unfold nearest in Hnp; destruct (pose_entries s) eqn:E;
      [erewrite body_no_pose; eauto | discriminate]].
  destruct (fgt (gap (ts c) p) margin) eqn:Hgp;
    [erewrite body_pose_far; eauto|].
  destruct (body_accepts rgb_dir depth_dir margin c s d p Hnd Hgd Hnp Hgp)
    as (ds' & ps' & Rd & Rp & ->).
  destruct (remove_nearest String.eqb c _ d Nd Hnd) as (a1 & a2 & Ea & Ra).
  destruct (remove_nearest tokens_eqb c _ p Np Hnp) as (b1 & b2 & Eb & Rb).
  rewrite Ra in Rd. rewrite Rb in Rp. injection Rd as <-. injection Rp as <-.
  match goal with |- conserved _ _ (ctl_state (transcode _ _ ?fid ?f _ _ ?s0)) =>
    destruct (transcode_frame rgb_dir depth_dir fid f d p s0)
      as (H1 & H2 & _ & H4 & _)
  end.
  destruct Hc as [Cd Cp]. unfold conserved.
  rewrite H1, H2, H4. simpl. rewrite !map_app. simpl.
  rewrite Ea in Cd. rewrite Eb in Cp. split.
  - rewrite <- Cd, <- !app_assoc. apply Permutation_app_head.
    simpl. apply Permutation_middle.
  - rewrite <- Cp, <- !app_assoc. apply Permutation_app_head.
    simpl. apply Permutation_middle.
Qed.

Lemma for_rgb_conserves (rgb_dir depth_dir : image_dir) (margin : float)
    (ds0 : list (entry string)) (ps0 : list (entry (list string)))
    (rgb_entries : list (entry string)) :
  NoDup (map oid ds0) -> NoDup (map oid ps0) ->
  forall s, conserved ds0 ps0 s ->
  conserved ds0 ps0 (final (for_rgb rgb_dir depth_dir margin rgb_entries s)).
Proof.
  intros Hd Hp. induction rgb_entries as [|c rest IH]; intros s Hc; simpl;
    [exact Hc|].
  pose proof (body_conserves rgb_dir depth_dir margin ds0 ps0 c s Hd Hp Hc)
    as Hc'.
  destruct (body rgb_dir depth_dir margin c s); simpl in Hc'; auto.
Qed.

(** C1 (consumed once).  Start the loop on pools whose entries are distinct
    objects.  Whatever the color entries and the margin, and however the
    loop ends, no depth entry and no pose entry is given to two matches; and
    the entries given to matches, with those left in the pools, are exactly
    the entries of the pools at the start. *)
Theorem consumed_once (rgb_dir depth_dir : image_dir) (margin : float)
    (rgb_entries : list (entry string)) (ds : list (entry string))
    (ps : list (entry (list string))) :
  NoDup (map oid ds) -> NoDup (map oid ps) ->
  let s := final (for_rgb rgb_dir depth_dir margin rgb_entries
                          (initial ds ps)) in
  NoDup (map oid (map fm_depth (matched s)))
  /\ NoDup (map oid (map fm_pose (matched s)))
  /\ Permutation (map fm_depth (matched s) ++ depth_entries s) ds
  /\ Permutation (map fm_pose (matched s) ++ pose_entries s) ps.
Proof.
  intros Hd Hp s.
  assert (C : conserved ds ps s).
  { apply for_rgb_conserves; auto. split; simpl; reflexivity. }
  destruct (conserved_matched ds ps s Hd Hp C) as [Md Mp].
  destruct C as [Cd Cp]. repeat split; auto.
Qed.

(** C6 (tolerance boundary).  Let [d] and [p] be the nearest depth and pose
    entries of a color entry.  A gap that equals the margin counts as within
    the margin, for the depth check and for the pose check alike: when both
    gaps are within the margin the frame is made.  A depth gap greater than
    the margin skips the color entry, and so does a pose gap greater than
    the margin.  The gap is the absolute difference as the program computes
    it, [abs(rgb_ts - x[0])] on floats, and it is this float that is
    compared with the margin. *)
Theorem tolerance_boundary (rgb_dir depth_dir : image_dir) (margin : float)
    (c : entry string) (s : state) (d : entry string)
    (p : entry (list string)) :
  nearest c (depth_entries s) = Some d ->
  nearest c (pose_entries s) = Some p ->
  (within margin (gap (ts c) d) -> within margin (gap (ts c) p) ->
   accepts rgb_dir depth_dir margin c s d p)
  /\ (fgt (gap (ts c) d) margin = true ->
      body rgb_dir depth_dir margin c s = Continue s)
  /\ (within margin (gap (ts c) d) -> fgt (gap (ts c) p) margin = true ->
      body rgb_dir depth_dir margin c s = Continue s).
Proof.
  intros Hd Hp.
  assert (Hw : forall x, within margin x -> fgt x margin = false).
  { intros x [H | H]; [now apply gt_eq | exact H]. }
  repeat split.
  - intros H1 H2. apply body_accepts; auto.
  - intros H. eapply body_depth_far; eauto.
  - intros H1 H2. eapply body_pose_far; eauto.
Qed.

End Laws.

(** ** The loader *)

Section LoaderFacts.

Context {N : Numeric}.

Lemma number_fields {P} (l : list (float * P)) :
  forall i,
    map ts (number i l) = map fst l
    /\ map payload (number i l) = map snd l
    /\ map oid (number i l) = seq i (List.length l).
Proof.
  induction l as [|[t p] l IH]; intros i; simpl; [auto|].
  destruct (IH (S i)) as (H1 & H2 & H3). now rewrite H1, H2, H3.
Qed.

(** The loader gives every entry of a list its own identity. *)
Lemma number_distinct {P} (l : list (float * P)) (i : nat) :
  NoDup (map oid (number i l)).
Proof.
  destruct (number_fields l i) as (_ & _ & ->). apply seq_NoDup.
Qed.

Lemma float_of_numeric (tok : string) :
  (numeric tok = true -> exists x, float_of tok = Ok x)
  /\ (numeric tok = false -> float_of tok = Raise ValueError).
Proof.
  unfold numeric, float_of. destruct (py_float tok); split; intros H;
    try discriminate; eauto.
Qed.

Lemma image_entries_fields (files : list string) (es : list (entry string)) :
  image_entries files = Ok es ->
  map payload es = files
  /\ Forall (fun e => py_float (PyStr.rsplit_dot_head (payload e))
                      = Some (ts e)) es.
Proof.
  unfold image_entries.
  destruct (comprehension image_entry files) as [l|] eqn:Hl; simpl;
    [|discriminate].
  intros H. injection H as <-. apply comprehension_inv in Hl.
  assert (forall i,
    map payload (number i l) = files
    /\ Forall (fun e => py_float (PyStr.rsplit_dot_head (payload e))
                        = Some (ts e)) (number i l)) as Hgen.
  { induction Hl as [|f [t f'] files l Hf Hall IH]; intros i; simpl;
      [split; [reflexivity | constructor]|].
    unfold image_entry, float_of in Hf.
    destruct (py_float (PyStr.rsplit_dot_head f)) eqn:Ef; simpl in Hf;
      [|discriminate].
    injection Hf as E1 E2. subst t f'. destruct (IH (S i)) as [H1 H2].
    split; [now rewrite H1 | constructor; auto]. }
  apply Hgen.
Qed.

Lemma startswith_hash (line : string) :
  PyStr.startswith "#" line = true <-> exists r, line = String "#" r.
Proof.
  unfold PyStr.startswith. destruct line as [|c r].
  - split; [discriminate | intros [r H]; discriminate].
  - change (String.prefix "#" (String c r))
      with (if ascii_dec "#" c then String.prefix "" r else false).
    destruct (ascii_dec "#" c) as [<- | Hc].
    + split; [eauto|]. intros _. now destruct r.
    + split; [discriminate|]. intros [r' H]. congruence.
Qed.

Lemma truthy_false (s : string) : PyStr.truthy s = false <-> s = "".
Proof. destruct s; simpl; split; congruence. Qed.

(** A line that passes the filter has a first token, so [parts[0]] exists:
    its entry is built, or [float] raises. *)
Lemma pose_entry_kept (line : string) :
  keeps line = true ->
  (numeric_head (PyStr.strip line) = true
   /\ exists t, py_float (hd "" (PyStr.split (PyStr.strip line))) = Some t
        /\ pose_entry (PyStr.strip line)
           = Ok (t, tl (PyStr.split (PyStr.strip line))))
  \/ (numeric_head (PyStr.strip line) = false
      /\ pose_entry (PyStr.strip line) = Raise ValueError).
Proof.
  unfold keeps. intros H. apply andb_true_iff in H as [H _].
  apply PyStrFacts.split_strip_nonempty in H.
  unfold pose_entry, numeric_head, numeric, float_of.
  destruct (PyStr.split (PyStr.strip line)) as [|p0 data]; [congruence|].
  simpl. destruct (py_float p0) as [t|]; [left | right]; simpl; eauto.
Qed.

Lemma load_poses_cases (file : list string) :
  ((forall line, In line file -> keeps line = true ->
      numeric_head (PyStr.strip line) = true)
   /\ exists es,
        load_poses file = Ok es
        /\ map payload es
           = map (fun l => tl (PyStr.split (PyStr.strip l)))
                 (filter keeps file))
  \/ ((exists line, In line file /\ keeps line = true
                    /\ numeric_head (PyStr.strip line) = false)
      /\ load_poses file = Raise ValueError).
Proof.
  unfold load_poses, pose_lines.
  induction file as [|line file IH]; simpl.
  - left. split; [tauto|]. exists []. auto.
  - destruct (keeps line) eqn:Hk.
    + simpl. destruct (pose_entry_kept line Hk)
        as [(Hn & t & Ht & ->) | (Hn & ->)]; simpl.
      * destruct IH as [(Hall & es & Hes & Hp) | ((l & Hl & Hkl & Hnl) & Hr)].
        -- left. split.
           ++ intros l [<- | Hl] Hkl; auto.
           ++ destruct (comprehension pose_entry
                          (map PyStr.strip (filter keeps file))) as [ys|];
                simpl in Hes; [|discriminate].
              injection Hes as <-. simpl.
              eexists. split; [reflexivity|]. simpl.
              destruct (number_fields ys 1) as (_ & -> & _).
              destruct (number_fields ys 0) as (_ & E & _).
              now rewrite <- Hp, E.
        -- right. split; [exists l; auto|].
           destruct (comprehension pose_entry
                       (map PyStr.strip (filter keeps file))) as [ys|];
             simpl in Hr; [discriminate|]. simpl. congruence.
      * right. split; [exists line; auto | reflexivity].
    + destruct IH as [(Hall & es & Hes & Hp) | ((l & Hl & Hkl & Hnl) & Hr)].
      * left. split; [|eauto]. intros l [<- | Hl] Hkl; [congruence | auto].
      * right. split; [exists l; auto | exact Hr].
Qed.

Lemma unpack_pose_seven (data : list string) :
  (seven_numbers data = true -> exists x, unpack_pose data = Ok x)
  /\ (seven_numbers data = false -> unpack_pose data = Raise ValueError).
Proof.
  unfold seven_numbers, unpack_pose.
  assert (Hc : forall l : list string,
    (forallb numeric l = true ->
       exists ys, comprehension float_of l = Ok ys
                  /\ List.length ys = List.length l)
    /\ (forallb numeric l = false ->
        comprehension float_of l = Raise ValueError)).
  { induction l as [|tok l [IH1 IH2]]; simpl.
    - split; [exists []; auto | discriminate].
    - destruct (float_of_numeric tok) as [Hn1 Hn2].
      destruct (numeric tok); simpl.
      + destruct Hn1 as [x ->]; [reflexivity|]. simpl. split.
        * intros H. destruct (IH1 H) as (ys & -> & Hlen). simpl.
          exists (x :: ys). simpl. auto.
        * intros H. now rewrite (IH2 H).
      + rewrite Hn2 by reflexivity. split; [discriminate | reflexivity]. }
  destruct (Hc data) as [H1 H2].
  destruct (forallb numeric data).
  - destruct H1 as (ys & -> & Hlen); [reflexivity|]. simpl.
    rewrite andb_true_r, <- Hlen. split.
    + intros H. apply Nat.eqb_eq in H.
      do 8 (destruct ys as [|? ys]; try discriminate). eauto.
    + intros H. apply Nat.eqb_neq in H.
      do 8 (destruct ys as [|? ys]; simpl in H; try reflexivity; try lia).
  - rewrite H2 by reflexivity. rewrite andb_false_r.
    split; [discriminate | reflexivity].
Qed.

(** C4, as the code has it (malformed pose lines).  Loading the pose file
    raises a parse error exactly when the first token of a line that passes
    the filter is not a number; the number of tokens and the tokens after
    the first are not looked at, so every other file is loaded, each entry
    with the rest of its line as payload.  A payload that is not seven
    numbers raises later, when the transcoder unpacks it for a match that
    took the entry: after the color and depth files of that frame have been
    written. *)
Theorem pose_line_errors (file : list string) :
  (load_poses file = Raise ValueError
   <-> exists line, In line file /\ keeps line = true
                    /\ numeric_head (PyStr.strip line) = false)
  /\ ((exists es,
         load_poses file = Ok es
         /\ map payload es
            = map (fun l => tl (PyStr.split (PyStr.strip l)))
                  (filter keeps file))
      <-> forall line, In line file -> keeps line = true ->
                       numeric_head (PyStr.strip line) = true)
  /\ (forall data,
        unpack_pose data = Raise ValueError <-> seven_numbers data = false)
  /\ forall rgb_dir depth_dir frame_id f d p s rgb_img depth_img,
       open_image rgb_dir f = Ok rgb_img ->
       open_image depth_dir (payload d) = Ok depth_img ->
       seven_numbers (payload p) = false ->
       transcode rgb_dir depth_dir frame_id f d p s
       = Raised ValueError
           (write (frame_id ++ ".depth.png")%string
                  (DepthPng (map depth_pixel depth_img))
                  (write (frame_id ++ ".color.jpg")%string
                         (ColorJpg rgb_img) s)).
Proof.
  repeat split.
  - intros Hr. destruct (load_poses_cases file)
      as [(_ & es & Hes & _) | (Hex & _)]; [congruence | exact Hex].
  - intros (line & Hin & Hk & Hn). destruct (load_poses_cases file)
      as [(Hall & _) | (_ & Hr)]; [|exact Hr].
    rewrite (Hall line Hin Hk) in Hn. discriminate.
  - intros (es & Hes & _) line Hin Hk. destruct (load_poses_cases file)
      as [(Hall & _) | (_ & Hr)]; [auto | congruence].
  - intros Hall. destruct (load_poses_cases file)
      as [(_ & Hex) | ((line & Hin & Hk & Hn) & _)]; [exact Hex|].
    rewrite (Hall line Hin Hk) in Hn. discriminate.
  - intros Hr. destruct (unpack_pose_seven data) as [H1 _].
    destruct (seven_numbers data); [|reflexivity].
    destruct H1 as [x Hx]; [reflexivity | congruence].
  - apply unpack_pose_seven.
  - intros rgb_dir depth_dir frame_id f d p s rgb_img depth_img H1 H2 H3.
    unfold transcode. rewrite H1, H2.
    destruct (unpack_pose_seven (payload p)) as [_ ->]; [reflexivity | exact H3].
Qed.

(** C5, as the code has it (order of the color entries).  The file names
    that pass the extension filter are sorted as strings, code point by code
    point, before any timestamp is read; the entries are built in that
    order, each with the timestamp read from the stem of its name, and the
    loop takes them in that order.  The order is that of the names, not of
    the timestamps. *)
Theorem color_entries_in_name_order (exts listing : list string)
    (es : list (entry string)) :
  image_entries (image_files exts listing) = Ok es ->
  map payload es
  = PyStr.sorted
      (filter (fun f => PyStr.endswith_any exts (PyStr.lower f)) listing)
  /\ StronglySorted PyStr.le (map payload es)
  /\ Permutation (map payload es)
       (filter (fun f => PyStr.endswith_any exts (PyStr.lower f)) listing)
  /\ Forall (fun e => py_float (PyStr.rsplit_dot_head (payload e))
                      = Some (ts e)) es.
Proof.
  intros H. apply image_entries_fields in H as [Hp Hts].
  unfold image_files in Hp. rewrite Hp. repeat split; auto.
  - apply PyStrFacts.sorted_sorted.
  - apply PyStrFacts.sorted_perm.
Qed.

Hypothesis hash_not_float : forall s, py_float (String "#" s) = None.

(** C10 (the comment test looks at the raw line).  A line is dropped by the
    filter exactly when it is blank or its very first character is the
    comment marker.  A line that has whitespace before the marker passes
    the filter, its first token begins with the marker and is no number,
    and loading a file that contains such a line raises a parse error. *)
Theorem indented_comment_is_data (file : list string) (w rest : string) :
  w <> "" -> PyStr.blank w = true ->
  In (w ++ String "#" rest)%string file ->
  keeps (w ++ String "#" rest)%string = true
  /\ pose_entry (PyStr.strip (w ++ String "#" rest)%string) = Raise ValueError
  /\ load_poses file = Raise ValueError
  /\ forall line,
       keeps line = false
       <-> PyStr.strip line = "" \/ exists r, line = String "#" r.
Proof.
  intros Hw Hb Hin.
  assert (Hstrip : exists r,
            PyStr.strip (w ++ String "#" rest)%string = String "#" r).
  { unfold PyStr.strip. rewrite PyStrFacts.lstrip_skip by exact Hb.
    change (PyStr.lstrip (String "#" rest)) with (String "#" rest).
    now apply PyStrFacts.rstrip_head. }
  destruct Hstrip as [r Hr].
  assert (Hkeep : keeps (w ++ String "#" rest)%string = true).
  { unfold keeps. rewrite Hr. simpl.
    destruct (PyStr.startswith "#" (w ++ String "#" rest)%string) eqn:Hs;
      [|reflexivity].
    apply startswith_hash in Hs as [r' Hs].
    destruct w as [|c w']; [congruence|].
    simpl in Hs, Hb. injection Hs as -> _. discriminate. }
  assert (Hentry : pose_entry (PyStr.strip (w ++ String "#" rest)%string)
                   = Raise ValueError).
  { rewrite Hr. unfold pose_entry.
    destruct (PyStrFacts.split_head "#" r) as (t & ts' & ->); [reflexivity|].
    unfold float_of. now rewrite hash_not_float. }
  repeat split; auto.
  - destruct (load_poses_cases file) as [(Hall & _) | (_ & Hl)]; [|exact Hl].
    specialize (Hall _ Hin Hkeep).
    destruct (pose_entry_kept _ Hkeep) as [(_ & t & _ & Hok) | (Hn & _)];
      congruence.
  - unfold keeps. intros H. apply andb_false_iff in H as [H | H].
    + left. now apply truthy_false.
    + right. apply startswith_hash. now apply negb_false_iff.
  - unfold keeps. intros [H | H].
    + rewrite H. reflexivity.
    + apply startswith_hash in H. rewrite H. apply andb_false_r.
Qed.

End LoaderFacts.

(** ** A whole scene *)

Section SceneFacts.

Context {N : Numeric}.

Hypothesis lt_irrefl : forall a, flt a a = false.
Hypothesis lt_keep :
  forall a b c, flt c b = true -> flt a b = false -> flt a c = false.
Hypothesis eq_gap :
  forall t t', feq t t' = true ->
  forall c x, flt (fabs (fsub c t)) x = flt (fabs (fsub c t')) x.

(** The entries the loader builds are distinct objects, so the loop of
    every scene gives no depth entry and no pose entry to two matches. *)
Lemma scene_consumed_once (tum_folder : scene) (margin : float) :
  let s := final (combine_and_rename_files tum_folder margin) in
  NoDup (map oid (map fm_depth (matched s)))
  /\ NoDup (map oid (map fm_pose (matched s))).
Proof.
  unfold combine_and_rename_files.
  destruct (rgb tum_folder) as [rgb_dir|]; [|split; constructor].
  destruct (depth tum_folder) as [depth_dir|]; [|split; constructor].
  destruct (groundtruth tum_folder) as [pose_file|]; [|split; constructor].
  destruct (image_entries (image_files _ (map fst rgb_dir))) as [cs|];
    [|split; constructor].
  unfold image_entries, load_poses.
  destruct (comprehension image_entry _) as [dl|];
    [|simpl; split; apply NoDup_nil].
  destruct (comprehension pose_entry _) as [pl|];
    [|simpl; split; apply NoDup_nil].
  cbn [bind_result].
  apply (conserved_matched (number 0 dl) (number 0 pl));
    try apply number_distinct.
  apply for_rgb_conserves; auto using number_distinct.
  split; simpl; reflexivity.
Qed.

End SceneFacts.

(** ** The batch driver *)

Section BatchFacts.

Context {N : Numeric}.

Variables (source_dir : list (string * option scene)) (margin : float).

Lemma for_scenes_acc (names : list string) :
  forall out,
    for_scenes source_dir margin names out
    = (out ++ fst (for_scenes source_dir margin names []),
       snd (for_scenes source_dir margin names [])).
Proof.
  induction names as [|n names IH]; intros out; simpl.
  - now rewrite app_nil_r.
  - destruct (lookup n source_dir) as [[sc|]|]; try apply IH.
    destruct (combine_and_rename_files sc margin) as [s|e s]; simpl;
      [|reflexivity].
    rewrite IH. rewrite (IH (under n _)). simpl. now rewrite app_assoc.
Qed.

Lemma for_scenes_app (pre rest : list string) (out : dest) :
  for_scenes source_dir margin pre [] = (out, None) ->
  for_scenes source_dir margin (pre ++ rest) []
  = for_scenes source_dir margin rest out.
Proof.
  revert out. induction pre as [|n pre IH]; intros out; simpl.
  - intros H. now injection H as <-.
  - destruct (lookup n source_dir) as [[sc|]|]; try apply IH.
    destruct (combine_and_rename_files sc margin) as [s|e s]; simpl;
      [|discriminate].
    rewrite for_scenes_acc. rewrite (for_scenes_acc (pre ++ rest)).
    rewrite (for_scenes_acc rest out).
    destruct (for_scenes source_dir margin pre []) as [o r] eqn:Hpre.
    simpl. intros H. injection H as <- ->.
    rewrite (IH o eq_refl). rewrite (for_scenes_acc rest o). simpl.
    now rewrite app_assoc.
Qed.

Lemma for_scenes_names (names : list string) :
  Forall (fun x => In (fst x) names)
         (fst (for_scenes source_dir margin names [])).
Proof.
  induction names as [|n names IH]; simpl; [constructor|].
  assert (Hweak : Forall (fun x : string * (string * artifact) =>
                            n = fst x \/ In (fst x) names)
                         (fst (for_scenes source_dir margin names []))).
  { eapply Forall_impl; [|exact IH]. simpl. auto. }
  assert (Hunder : forall files,
            Forall (fun x : string * (string * artifact) =>
                      n = fst x \/ In (fst x) names) (under n files)).
  { intros files. unfold under. rewrite Forall_forall. intros x Hx.
    apply in_map_iff in Hx as (f & <- & _). now left. }
  destruct (lookup n source_dir) as [[sc|]|]; auto.
  destruct (combine_and_rename_files sc margin) as [s|e s]; simpl; auto.
  rewrite for_scenes_acc. simpl. apply Forall_app. auto.
Qed.

(** C3, as the code has it (a failing scene ends the batch).  [main] calls
    the converter without guarding the call.  Let a scene's conversion raise
    an exception, where every scene sorted before it was converted without
    one: then [main] ends with that exception, the destination holds what
    the earlier scenes wrote and what the failing scene wrote before it
    raised, and nothing at all of the scenes sorted after it. *)
Theorem first_error_ends_the_batch (pre post : list string) (name : string)
    (sc : scene) (e : exn) (s : state) (out : dest) :
  PyStr.sorted (map fst source_dir) = pre ++ name :: post ->
  for_scenes source_dir margin pre [] = (out, None) ->
  lookup name source_dir = Some (Some sc) ->
  combine_and_rename_files sc margin = Abort e s ->
  main (Some source_dir) margin = (out ++ under name (written s), Some e)
  /\ Forall (fun x => In (fst x) pre) out.
Proof.
  intros Hsorted Hpre Hlook Hsc. split.
  - unfold main. rewrite Hsorted, (for_scenes_app pre _ out Hpre).
    simpl. now rewrite Hlook, Hsc.
  - pose proof (for_scenes_names pre) as H. now rewrite Hpre in H.
Qed.

End BatchFacts.

(** ** The rational implementation: laws *)

Module ExactFacts.

Import Exact.

Lemma lt_iff (a b : Q) : lt a b = true <-> (a < b)%Q.
Proof.
  unfold lt. rewrite negb_true_iff. split.
  - intros H. apply Qnot_le_lt. intros Hle.
    apply Qle_bool_iff in Hle. congruence.
  - intros H. destruct (Qle_bool b a) eqn:E; [|reflexivity].
    apply Qle_bool_iff in E. exfalso. eapply Qlt_not_le; eauto.
Qed.

Lemma lt_false_iff (a b : Q) : lt a b = false <-> (b <= a)%Q.
Proof.
  unfold lt. rewrite negb_false_iff. apply Qle_bool_iff.
Qed.

Lemma lt_irrefl (a : Q) : lt a a = false.
Proof. apply lt_false_iff. apply Qle_refl. Qed.

Lemma lt_keep (a b c : Q) :
  lt c b = true -> lt a b = false -> lt a c = false.
Proof.
  rewrite lt_iff, !lt_false_iff. intros H1 H2.
  apply Qlt_le_weak. eapply Qlt_le_trans; eauto.
Qed.

Lemma lt_compat (a a' x : Q) : (a == a')%Q -> lt a x = lt a' x.
Proof.
  intros H. destruct (lt a' x) eqn:E.
  - apply lt_iff. apply lt_iff in E. now rewrite H.
  - apply lt_false_iff. apply lt_false_iff in E. now rewrite H.
Qed.

Lemma eq_gap (t t' : Q) :
  Qeq_bool t t' = true ->
  forall c x, lt (Qabs (sub c t)) x = lt (Qabs (sub c t')) x.
Proof.
  intros H c x. apply Qeq_bool_iff in H. apply lt_compat.
  unfold sub. rewrite !Qred_correct. now rewrite H.
Qed.

Lemma gt_eq (a b : Q) : Qeq_bool a b = true -> gt a b = false.
Proof.
  intros H. apply Qeq_bool_iff in H. unfold gt. apply lt_false_iff.
  rewrite H. apply Qle_refl.
Qed.

Lemma hash_not_float (s : string) : decimal (String "#" s) = None.
Proof.
  unfold decimal, PyStr.strip.
  change (PyStr.lstrip (String "#" s)) with (String "#" s).
  destruct (PyStrFacts.rstrip_head "#" s eq_refl) as [r ->].
  cbn. unfold unsigned. cbn [cut_at_dot].
  change (Ascii.eqb "#" ".") with false. cbv iota.
  destruct (cut_at_dot r) as [a b]. reflexivity.
Qed.

End ExactFacts.

(** ** Concrete runs *)

Module Runs.

Import Exact Scenes.

Local Open Scope Q_scope.

(** The test of the specification for C1: one depth frame, two color frames
    within the margin of it.  One frame is made, from the first color frame;
    the loop then finds the depth pool empty. *)
Example shared_depth_run :
  let r := combine_and_rename_files shared_depth margin in
  raised r = None
  /\ map (fun m => payload (fm_color m)) (matched (final r))
     = ["1.00.png"]%string
  /\ map (fun m => payload (fm_depth m)) (matched (final r))
     = ["1.005.png"]%string
  /\ map oid (depth_entries (final r)) = []
  /\ map fst (written (final r))
     = ["frame-000000.color.jpg"; "frame-000000.depth.png";
        "frame-000000.pose.txt"]%string.
Proof. repeat split; vm_compute; reflexivity. Qed.

Lemma consumed_once_witness :
  NoDup (map oid shared_depths) /\ NoDup (map oid shared_poses)
  /\ let s := final (for_rgb files files margin shared_colors
                             (initial shared_depths shared_poses)) in
     NoDup (map oid (map fm_depth (matched s)))
     /\ NoDup (map oid (map fm_pose (matched s)))
     /\ Permutation (map fm_depth (matched s) ++ depth_entries s)
                    shared_depths
     /\ Permutation (map fm_pose (matched s) ++ pose_entries s) shared_poses.
Proof.
  assert (Hd : NoDup (map oid shared_depths)).
  { simpl. repeat constructor. simpl. tauto. }
  assert (Hp : NoDup (map oid shared_poses)).
  { simpl. repeat constructor; simpl; intuition discriminate. }
  split; [exact Hd|]. split; [exact Hp|].
  exact (consumed_once (N := numeric) ExactFacts.lt_irrefl ExactFacts.lt_keep
           ExactFacts.eq_gap files files margin shared_colors shared_depths
           shared_poses Hd Hp).
Defined.

Lemma no_partial_consumption_witness :
  body files files margin (color 0 1 "1.00.png") pose_too_far
  = Continue pose_too_far
  /\ In (depth_at 0 (101 # 100) "1.01.png") (depth_entries pose_too_far).
Proof.
  destruct (no_partial_consumption (N := numeric) files files margin
              (color 0 1 "1.00.png") pose_too_far
              (depth_at 0 (101 # 100) "1.01.png"))
    as (H1 & _ & _ & H4 & _).
  - reflexivity.
  - right. split; [reflexivity|].
    exists (pose_at 0 (103 # 100)). split; reflexivity.
  - split; assumption.
Defined.


Lemma exhaustion_ends_the_scene_witness :
  for_rgb files files margin
          [color 0 1 "1.00.png"; color 1 (101 # 100) "1.01.png"]
          no_pose_near_depth
  = Done no_pose_near_depth.
Proof.
  apply (exhaustion_ends_the_scene (N := numeric) files files margin
           (color 0 1 "1.00.png") [color 1 (101 # 100) "1.01.png"]
           no_pose_near_depth).
  right. reflexivity.
Defined.

Lemma color_entries_in_name_order_witness :
  map payload [color 0 (21 # 2) "10.5.png"; color 1 (19 # 2) "9.5.png"]
  = PyStr.sorted
      (filter (fun f => PyStr.endswith_any [".png"; ".jpg"]%string
                                           (PyStr.lower f))
              uneven_names)
  /\ StronglySorted PyStr.le ["10.5.png"; "9.5.png"]%string.
Proof.
  destruct (color_entries_in_name_order (N := numeric)
              [".png"; ".jpg"]%string uneven_names
              [color 0 (21 # 2) "10.5.png"; color 1 (19 # 2) "9.5.png"])
    as (H1 & H2 & _).
  - reflexivity.
  - split; assumption.
Defined.

Lemma indented_comment_is_data_witness :
  load_poses indented_log = Raise ValueError.
Proof.
  apply (indented_comment_is_data (N := numeric) ExactFacts.hash_not_float
           indented_log "  " (line " timestamp tx ty tz qx qy qz qw")).
  - discriminate.
  - reflexivity.
  - left. reflexivity.
Defined.

Lemma pose_line_errors_witness :
  exists es,
    load_poses short_log = Ok es
    /\ map payload es
       = map (fun l => tl (PyStr.split (PyStr.strip l)))
             (filter keeps short_log).
Proof.
  apply (pose_line_errors (N := numeric) short_log).
  intros l [<- | [<- | []]] _; reflexivity.
Defined.

Lemma first_error_ends_the_batch_witness :
  main (Some two_scenes) margin = ([], Some ValueError).
Proof.
  apply (first_error_ends_the_batch (N := numeric) two_scenes margin
           [] ["scene_b"%string] "scene_a" bad_log ValueError
           (initial [] []) []); reflexivity.
Defined.

(** The example of the specification for C7: five color frames, three
    matches, frames 0 to 2. *)
Example five_colors_run :
  let r := combine_and_rename_files five_colors margin in
  raised r = None
  /\ map (fun m => payload (fm_color m)) (matched (final r))
     = ["1.0.png"; "3.0.png"; "5.0.png"]%string
  /\ map fst (written (final r))
     = ["frame-000000.color.jpg"; "frame-000000.depth.png";
        "frame-000000.pose.txt";
        "frame-000001.color.jpg"; "frame-000001.depth.png";
        "frame-000001.pose.txt";
        "frame-000002.color.jpg"; "frame-000002.depth.png";
        "frame-000002.pose.txt"]%string.
Proof. repeat split; vm_compute; reflexivity. Qed.

(** *** Where the code departs from the specification *)

(** C3.  Scene [scene_a] has a pose log that does not parse and [scene_b] is
    in order: on its own [scene_b] is converted, but in a batch with
    [scene_a], which is sorted first, [main] ends with the parse error and
    writes nothing for [scene_b]. *)
Lemma failing_scene_stops_later_scenes :
  PyStr.sorted (map fst two_scenes) = ["scene_a"; "scene_b"]%string
  /\ map (fun x => (fst x, fst (snd x)))
         (fst (main (Some [("scene_b"%string, Some good)]) margin))
     = [("scene_b", "frame-000000.color.jpg");
        ("scene_b", "frame-000000.depth.png");
        ("scene_b", "frame-000000.pose.txt"); ("scene_b", "info.txt")]%string
  /\ snd (main (Some [("scene_b"%string, Some good)]) margin) = None
  /\ main (Some two_scenes) margin = ([], Some ValueError).
Proof. repeat split; reflexivity. Qed.

(** C4.  Two pose lines pass the filter, one with three tokens and one with
    a component that is no number: neither is a line of eight numbers, and
    the pose file loads without any error. *)
Lemma malformed_pose_lines_load :
  map keeps short_log = [true; true]
  /\ map (fun l => eight_numbers (PyStr.strip l)) short_log = [false; false]
  /\ load_poses short_log
     = Ok [Entry 0 1 ["1.0"; "2.0"]%string;
           Entry 1 2 ["x"; "2.0"; "3.0"; "0"; "0"; "0"; "1"]%string].
Proof. repeat split; reflexivity. Qed.

(** C5.  Of the names 9.5.png and 10.5.png the loader puts 10.5.png first:
    the color entries are not in ascending order of timestamp. *)
Lemma color_entries_not_in_timestamp_order :
  image_entries (image_files [".png"; ".jpg"]%string uneven_names)
  = Ok [color 0 (21 # 2) "10.5.png"; color 1 (19 # 2) "9.5.png"]
  /\ ts_ascending [color 0 (21 # 2) "10.5.png"; color 1 (19 # 2) "9.5.png"]
     = false.
Proof. split; reflexivity. Qed.

(** C9.  The pose pool is empty and the only depth frame is far from the
    color frame: the iteration does not break, it skips the color frame. *)
Lemma empty_pose_pool_skips :
  pose_entries no_pose_far_depth = []
  /\ body files files margin (color 0 1 "1.00.png") no_pose_far_depth
     = Continue no_pose_far_depth
  /\ body files files margin (color 0 1 "1.00.png") no_pose_far_depth
     <> Break no_pose_far_depth.
Proof. repeat split; try reflexivity. discriminate. Qed.

End Runs.

(** ** Double precision: the law of the boundary, and runs *)

Module Binary64Facts.

Import Binary64.

Lemma compare_cont_eq (m m' : positive) :
  Pos.compare_cont Eq m m' = Eq -> m = m'.
Proof. apply Pos.compare_eq. Qed.

(** Doubles that compare equal are not greater than one another; a NaN is
    equal to nothing. *)
Lemma equal_not_greater (a b : spec_float) :
  SFeqb a b = true -> gt a b = false.
Proof.
  unfold gt, SFltb, SFeqb.
  destruct a as [sa|sa| |sa ma ea], b as [sb|sb| |sb mb eb]; simpl;
    try discriminate; try reflexivity;
    try (destruct sa; simpl; discriminate);
    try (destruct sb; simpl; discriminate).
  - destruct sa, sb; simpl; try discriminate; reflexivity.
  - destruct sa, sb; simpl; try discriminate;
      destruct (Z.compare ea eb) eqn:E; try discriminate;
      apply Z.compare_eq in E; subst eb; rewrite Z.compare_refl;
      destruct (Pos.compare_cont Eq ma mb) eqn:Em; try discriminate;
      apply compare_cont_eq in Em; subst mb;
      change (Pos.compare_cont Eq ma ma) with (Pos.compare ma ma);
      rewrite Pos.compare_refl; reflexivity.
Qed.

(** The literals of the scenes, as Python reads them. *)
Example literals :
  decimal "0.02" = Some (S754_finite false 5764607523034235 (-58))
  /\ decimal "0.04" = Some (S754_finite false 5764607523034235 (-57))
  /\ decimal "1.02" = Some (S754_finite false 4593671619917906 (-52))
  /\ decimal "1.00" = Some (S754_finite false 4503599627370496 (-52))
  /\ decimal "0.00" = Some (S754_zero false).
Proof. repeat split; vm_compute; reflexivity. Qed.

End Binary64Facts.

Module Runs64.

Import Binary64 Scenes64.

(** At the boundary, in double precision and with the default margin: the
    color frame at 0.02 has its depth frame at 0.04 and its pose at 0.00,
    both computed differences equal the margin, and the frame is made. *)
Lemma tolerance_boundary_on_doubles :
  feq (gap (read "0.02") (at_time 0 "0.04" "0.04.png")) margin = true
  /\ feq (gap (read "0.02") (pose_at_time 0 "0.00")) margin = true
  /\ accepts images images margin (at_time 0 "0.02" "0.02.png") at_margin
       (at_time 0 "0.04" "0.04.png") (pose_at_time 0 "0.00").
Proof.
  split; [vm_compute; reflexivity|]. split; [vm_compute; reflexivity|].
  apply (tolerance_boundary (N := numeric) Binary64Facts.equal_not_greater
           images images margin (at_time 0 "0.02" "0.02.png") at_margin
           (at_time 0 "0.04" "0.04.png") (pose_at_time 0 "0.00")
           eq_refl eq_refl).
  - left. vm_compute. reflexivity.
  - left. vm_compute. reflexivity.
Defined.

(** The iteration at the boundary writes the three files of frame 0 and
    empties both pools. *)
Example boundary_frame_is_written :
  let r := body images images margin (at_time 0 "0.02" "0.02.png")
                at_margin in
  map fst (written (ctl_state r))
  = ["frame-000000.color.jpg"; "frame-000000.depth.png";
     "frame-000000.pose.txt"]%string
  /\ frame_counter (ctl_state r) = 1
  /\ List.length (depth_entries (ctl_state r)) = 0
  /\ List.length (pose_entries (ctl_state r)) = 0.
Proof. repeat split; vm_compute; reflexivity. Qed.

(** What the boundary is not.  The decimal timestamps 1.00 and 1.02 are
    exactly 0.02 apart, but the difference the program computes from the
    doubles is above the double 0.02: the color frame at 1.00 is skipped
    with the default margin although its depth frame is at 1.02. *)
Lemma rounded_difference_above_margin :
  (Exact.decimal "1.02" = Some (51 # 50)%Q
   /\ Exact.decimal "1.00" = Some (1 # 1)%Q
   /\ Exact.decimal "0.02" = Some (1 # 50)%Q
   /\ Qeq ((51 # 50) - (1 # 1))%Q (1 # 50)%Q)
  /\ gap (read "1.00") (at_time 0 "1.02" "1.02.png")
     = S754_finite false 5764607523034240 (-58)
  /\ margin = S754_finite false 5764607523034235 (-58)
  /\ fgt (gap (read "1.00") (at_time 0 "1.02" "1.02.png")) margin = true
  /\ body images images margin (at_time 0 "1.00" "1.00.png")
          rounded_above_margin
     = Continue rounded_above_margin.
Proof.
  split; [repeat split; vm_compute; reflexivity|].
  split; [vm_compute; reflexivity|]. split; [vm_compute; reflexivity|].
  split; [vm_compute; reflexivity|].
  apply (body_depth_far (N := numeric) images images margin
           (at_time 0 "1.00" "1.00.png")
           rounded_above_margin (at_time 0 "1.02" "1.02.png"));
    [reflexivity | vm_compute; reflexivity].
Qed.

End Runs64.

(** * Further properties of the converter *)

(** ** The loop, iteration by iteration *)

Section MoreLoopFacts.

Context {N : Numeric}.

Variables (rgb_dir depth_dir : image_dir) (margin : float).

(** An iteration breaks or skips and leaves the state alone, or makes a
    match of the nearest depth and pose entries, both within the margin,
    and goes on to transcode it. *)
Lemma body_cases (c : entry string) (s : state) :
  (body rgb_dir depth_dir margin c s = Break s
   \/ body rgb_dir depth_dir margin c s = Continue s)
  \/ exists d p ds' ps',
       nearest c (depth_entries s) = Some d
       /\ fgt (gap (ts c) d) margin = false
       /\ nearest c (pose_entries s) = Some p
       /\ fgt (gap (ts c) p) margin = false
       /\ py_remove (same_or_equal String.eqb) d (depth_entries s) = Ok ds'
       /\ py_remove (same_or_equal tokens_eqb) p (pose_entries s) = Ok ps'
       /\ body rgb_dir depth_dir margin c s
          = transcode rgb_dir depth_dir
              ("frame-" ++ PyStr.fmt_06d (frame_counter s))%string
              (payload c) d p
              (State ds' ps' (S (frame_counter s)) (written s)
                     (matched s ++ [FrameMatch c d p])).
Proof.
  destruct (nearest c (depth_entries s)) as [d|] eqn:Hd.
  - destruct (fgt (gap (ts c) d) margin) eqn:Hgd.
    + left. right. eapply body_depth_far; eauto.
    + destruct (nearest c (pose_entries s)) as [p|] eqn:Hp.
      * destruct (fgt (gap (ts c) p) margin) eqn:Hgp.
        -- left. right. eapply body_pose_far; eauto.
        -- right.
           destruct (body_accepts rgb_dir depth_dir margin c s d p
                       Hd Hgd Hp Hgp) as (ds' & ps' & H1 & H2 & H3).
           exists d, p, ds', ps'. repeat split; auto.
      * left. left. eapply body_no_pose; eauto.
        unfold nearest in Hp. destruct (pose_entries s);
          [reflexivity | discriminate].
  - left. left. apply body_no_depth.
    unfold nearest in Hd. destruct (depth_entries s);
      [reflexivity | discriminate].
Qed.

Lemma py_remove_length {A} (eqb : A -> A -> bool) (x : A) (l l' : list A) :
  py_remove eqb x l = Ok l' -> List.length l = S (List.length l').
Proof.
  revert l'. induction l as [|y l IH]; simpl; intros l' H; [discriminate|].
  destruct (eqb y x); [now injection H as <-|].
  destruct (py_remove eqb x l) as [l''|]; simpl in H; [|discriminate].
  injection H as <-. simpl. f_equal. now apply IH.
Qed.

Lemma py_remove_incl {A} (eqb : A -> A -> bool) (x : A) (l l' : list A) :
  py_remove eqb x l = Ok l' -> incl l' l.
Proof.
  revert l'. induction l as [|y l IH]; simpl; intros l' H; [discriminate|].
  destruct (eqb y x); [injection H as <-; now apply incl_tl, incl_refl|].
  destruct (py_remove eqb x l) as [l''|]; simpl in H; [|discriminate].
  injection H as <-. apply incl_cons; [now left|].
  apply incl_tl. now apply IH.
Qed.

(** The effect of an iteration on the pools and on the history: nothing, or
    one match more, made of the color entry and of one entry taken out of
    each pool, both within the margin. *)
Lemma body_effect (c : entry string) (s : state) :
  let s' := ctl_state (body rgb_dir depth_dir margin c s) in
  (depth_entries s' = depth_entries s /\ pose_entries s' = pose_entries s
   /\ matched s' = matched s /\ frame_counter s' = frame_counter s)
  \/ exists d p,
       matched s' = matched s ++ [FrameMatch c d p]
       /\ close_match margin (FrameMatch c d p)
       /\ In d (depth_entries s) /\ In p (pose_entries s)
       /\ List.length (depth_entries s) = S (List.length (depth_entries s'))
       /\ List.length (pose_entries s) = S (List.length (pose_entries s'))
       /\ incl (depth_entries s') (depth_entries s)
       /\ incl (pose_entries s') (pose_entries s)
       /\ frame_counter s' = S (frame_counter s).
Proof.
  destruct (body_cases c s)
    as [[H | H] | (d & p & ds' & ps' & Hd & Hgd & Hp & Hgp & Rd & Rp & H)];
    rewrite H; simpl; [left; auto | left; auto |].
  right. exists d, p.
  match goal with |- context [transcode _ _ ?fid ?f _ _ ?s0] =>
    destruct (transcode_frame rgb_dir depth_dir fid f d p s0)
      as (H1 & H2 & H3 & H4 & _)
  end.
  rewrite H1, H2, H3, H4. simpl.
  split; [reflexivity|]. split; [split; assumption|].
  split; [eapply nearest_in; eauto|]. split; [eapply nearest_in; eauto|].
  split; [eapply py_remove_length; eauto|].
  split; [eapply py_remove_length; eauto|].
  split; [eapply py_remove_incl; eauto|].
  split; [eapply py_remove_incl; eauto | reflexivity].
Qed.

Lemma for_rgb_step (c : entry string) (rest : list (entry string))
    (s : state) :
  for_rgb rgb_dir depth_dir margin (c :: rest) s
  = for_rgb rgb_dir depth_dir margin rest
            (ctl_state (body rgb_dir depth_dir margin c s))
  \/ final (for_rgb rgb_dir depth_dir margin (c :: rest) s)
     = ctl_state (body rgb_dir depth_dir margin c s).
Proof.
  simpl. destruct (body rgb_dir depth_dir margin c s); simpl; auto.
Qed.

(** A property of states that every iteration keeps is kept by the loop. *)
Lemma for_rgb_invariant (I : list (entry string) -> state -> Prop) :
  (forall c rest s, I (c :: rest) s ->
     I rest (ctl_state (body rgb_dir depth_dir margin c s))) ->
  (forall c rest s, I (c :: rest) s -> I [] s) ->
  forall rgb_entries s,
    I rgb_entries s ->
    I [] (final (for_rgb rgb_dir depth_dir margin rgb_entries s)).
Proof.
  intros Hstep Hweak. induction rgb_entries as [|c rest IH]; intros s Hs;
    [exact Hs|].
  pose proof (Hstep c rest s Hs) as Hs'.
  destruct (for_rgb_step c rest s) as [-> | ->].
  - now apply IH.
  - destruct rest as [|c' rest']; [exact Hs' | eapply Hweak; eauto].
Qed.

End MoreLoopFacts.

(** ** What the loop guarantees about its matches *)

Section LoopProperties.

Context {N : Numeric}.

Variables (rgb_dir depth_dir : image_dir) (margin : float).

(** X1.  Every match the loop makes pairs a color entry with a depth entry and
    a pose entry that are both no further than the margin from it. *)
Theorem matches_within_margin (rgb_entries : list (entry string))
    (ds : list (entry string)) (ps : list (entry (list string))) :
  Forall (close_match margin)
         (matched (final (for_rgb rgb_dir depth_dir margin rgb_entries
                                  (initial ds ps)))).
Proof.
  apply (for_rgb_invariant rgb_dir depth_dir margin
           (fun _ s => Forall (close_match margin) (matched s))).
  - intros c rest s Hs.
    destruct (body_effect rgb_dir depth_dir margin c s)
      as [(_ & _ & -> & _) | (d & p & -> & Hc & _)]; [exact Hs|].
    apply Forall_app. split; [exact Hs | now constructor].
  - auto.
  - constructor.
Qed.

(** X3.  Each match takes one entry out of each pool and nothing else does: the
    frames made and the entries left add up to the entries at the start,
    for depth and for pose, and there are no more frames than color
    entries. *)
Theorem frames_and_pools_add_up (rgb_entries : list (entry string))
    (ds : list (entry string)) (ps : list (entry (list string))) :
  let s := final (for_rgb rgb_dir depth_dir margin rgb_entries
                          (initial ds ps)) in
  frame_counter s + List.length (depth_entries s) = List.length ds
  /\ frame_counter s + List.length (pose_entries s) = List.length ps
  /\ frame_counter s <= List.length rgb_entries.
Proof.
  intros s.
  assert (H : frame_counter s + List.length (depth_entries s)
              = List.length ds
              /\ frame_counter s + List.length (pose_entries s)
                 = List.length ps
              /\ frame_counter s + List.length (@nil (entry string))
                 <= List.length rgb_entries).
  { apply (for_rgb_invariant rgb_dir depth_dir margin
             (fun rest s =>
                frame_counter s + List.length (depth_entries s)
                = List.length ds
                /\ frame_counter s + List.length (pose_entries s)
                   = List.length ps
                /\ frame_counter s + List.length rest
                   <= List.length rgb_entries)).
    - intros c rest s0 (H1 & H2 & H3). simpl in H3.
      destruct (body_effect rgb_dir depth_dir margin c s0)
        as [(E1 & E2 & _ & E4)
           | (d & p & _ & _ & _ & _ & L1 & L2 & _ & _ & E4)].
      + rewrite E1, E2, E4. repeat split; lia.
      + rewrite E4. repeat split; lia.
    - intros c rest s0 (H1 & H2 & H3). simpl in *. repeat split; lia.
    - simpl. repeat split; lia. }
  simpl in H. destruct H as (H1 & H2 & H3). repeat split; lia.
Qed.

Lemma subseq_refl_nil {A} (l : list A) : subseq [] l.
Proof. induction l; constructor; auto. Qed.

Lemma for_rgb_matches (rgb_entries : list (entry string)) :
  forall s,
  exists ms,
    matched (final (for_rgb rgb_dir depth_dir margin rgb_entries s))
    = matched s ++ ms
    /\ subseq (map fm_color ms) rgb_entries.
Proof.
  induction rgb_entries as [|c rest IH]; intros s.
  - exists []. simpl. rewrite app_nil_r. split; constructor.
  - assert (Hb : exists ms1,
              matched (ctl_state (body rgb_dir depth_dir margin c s))
              = matched s ++ ms1
              /\ (ms1 = [] \/ exists d p, ms1 = [FrameMatch c d p])).
    { destruct (body_effect rgb_dir depth_dir margin c s)
        as [(_ & _ & E & _) | (d & p & E & _)].
      - exists []. rewrite app_nil_r. auto.
      - exists [FrameMatch c d p]. eauto. }
    destruct Hb as (ms1 & E1 & Hms1).
    destruct (for_rgb_step rgb_dir depth_dir margin c rest s) as [-> | ->].
    + destruct (IH (ctl_state (body rgb_dir depth_dir margin c s)))
        as (ms2 & E2 & S2).
      exists (ms1 ++ ms2). rewrite E2, E1, app_assoc. split; [reflexivity|].
      destruct Hms1 as [-> | (d & p & ->)]; simpl; now constructor.
    + exists ms1. split; [exact E1|].
      destruct Hms1 as [-> | (d & p & ->)]; simpl.
      * apply subseq_refl_nil.
      * apply subseq_take, subseq_refl_nil.
Qed.

(** X4.  The color entries of the frames, in frame order, are the color entries
    given to the loop with some left out: a color entry makes at most one
    frame and the frames keep the order of the color entries. *)
Theorem frames_follow_color_order (rgb_entries : list (entry string))
    (ds : list (entry string)) (ps : list (entry (list string))) :
  subseq (map fm_color
              (matched (final (for_rgb rgb_dir depth_dir margin rgb_entries
                                       (initial ds ps)))))
         rgb_entries.
Proof.
  destruct (for_rgb_matches rgb_entries (initial ds ps)) as (ms & E & H).
  rewrite E. exact H.
Qed.

Lemma transcode_raised (frame_id f : string) (d : entry string)
    (p : entry (list string)) (s s' : state) (e : exn) :
  transcode rgb_dir depth_dir frame_id f d p s = Raised e s' ->
  (e = OSError \/ e = ValueError)
  /\ exists k,
       k < 3
       /\ map fst (written s')
          = map fst (written s)
            ++ firstn k [ (frame_id ++ ".color.jpg")%string;
                          (frame_id ++ ".depth.png")%string;
                          (frame_id ++ ".pose.txt")%string ].
Proof.
  unfold transcode, open_image, unpack_pose, rotation_of.
  destruct (lookup f rgb_dir) as [[img|]|].
  2,3: intros H; injection H as <- <-; split; [now left|];
       exists 0; split; [lia | simpl; now rewrite app_nil_r].
  destruct (lookup (payload d) depth_dir) as [[dimg|]|].
  2,3: intros H; injection H as <- <-; split; [now left|];
       exists 1; split; [lia | simpl; now rewrite map_app].
  assert (Hfloat : forall l, comprehension float_of l = Raise e ->
                             e = ValueError).
  { induction l as [|tok l IH]; simpl; [discriminate|].
    unfold float_of at 1. destruct (py_float tok); simpl; [|congruence].
    destruct (comprehension float_of l); simpl; [discriminate | auto]. }
  destruct (comprehension float_of (payload p)) as [l|e0] eqn:Hl; simpl.
  - destruct l as [|tx [|ty [|tz [|qx [|qy [|qz [|qw [|extra l]]]]]]]];
      try (intros H; injection H as <- <-; split; [now right|];
           exists 2; split; [lia | simpl; rewrite !map_app, <- app_assoc;
                             reflexivity]).
    destruct (from_quat qx qy qz qw); [discriminate|].
    intros H; injection H as <- <-; split; [now right|].
    exists 2; split; [lia | simpl; rewrite !map_app, <- app_assoc;
                      reflexivity].
  - intros H; injection H as <- <-. split; [right; eapply Hfloat; eauto|].
    exists 2; split; [lia | simpl; rewrite !map_app, <- app_assoc;
                      reflexivity].
Qed.





End LoopProperties.

(** ** The names of the output files *)

Section OutputNames.

Context {N : Numeric}.

Variables (rgb_dir depth_dir : image_dir) (margin : float).

Lemma digit_not_dot (o : option Decimal.uint) : uint_of_char "." o = None.
Proof. destruct o; reflexivity. Qed.

(** A run of digits followed by a dot can be read in one way only. *)
Lemma digits_then_dot (a : string) :
  forall b x y,
    NilEmpty.uint_of_string a <> None ->
    NilEmpty.uint_of_string b <> None ->
    (a ++ String "." x)%string = (b ++ String "." y)%string ->
    a = b /\ x = y.
Proof.
  induction a as [|c a IH]; intros [|c' b] x y Ha Hb H; simpl in *.
  - injection H as <-. auto.
  - injection H as <- _. now rewrite digit_not_dot in Hb.
  - injection H as -> _. now rewrite digit_not_dot in Ha.
  - injection H as <- H.
    destruct (IH b x y) as [<- <-]; auto.
    + intros E. rewrite E in Ha. now apply Ha.
    + intros E. rewrite E in Hb. now apply Hb.
Qed.

Lemma fmt_06d_digits (i : nat) :
  NilEmpty.uint_of_string (PyStr.fmt_06d i) <> None.
Proof.
  pose proof (PyStrFacts.fmt_06d_index i) as H. unfold PyStr.read_index in H.
  intros E. rewrite E in H. discriminate.
Qed.

Lemma frame_file_shape (i : nat) (name : string) :
  In name (frame_files i) ->
  exists ext,
    name = ("frame-" ++ (PyStr.fmt_06d i ++ String "." ext))%string
    /\ In ext ["color.jpg"; "depth.png"; "pose.txt"]%string.
Proof.
  unfold frame_files. simpl.
  intros [<- | [<- | [<- | []]]]; eexists; split; eauto; simpl; auto.
Qed.

Lemma frame_file_index (i j : nat) (name : string) :
  In name (frame_files i) -> In name (frame_files j) -> i = j.
Proof.
  intros Hi Hj.
  apply frame_file_shape in Hi as (e1 & -> & _).
  apply frame_file_shape in Hj as (e2 & H & _).
  simpl in H. injection H as H.
  apply digits_then_dot in H as [H _]; auto using fmt_06d_digits.
  now apply PyStrFacts.fmt_06d_inj.
Qed.

Lemma frame_files_distinct (i : nat) : NoDup (frame_files i).
Proof.
  assert (Hne : forall e1 e2 : string, e1 <> e2 ->
            ("frame-" ++ (PyStr.fmt_06d i ++ String "." e1))%string
            <> ("frame-" ++ (PyStr.fmt_06d i ++ String "." e2))%string).
  { intros e1 e2 Hne H. simpl in H. injection H as H.
    apply digits_then_dot in H as [_ H]; auto using fmt_06d_digits. }
  unfold frame_files. repeat constructor; simpl.
  - intros [H | [H | []]]; revert H; apply Hne; discriminate.
  - intros [H | []]; revert H; apply Hne; discriminate.
  - tauto.
Qed.

(** The files a frame leaves are the first ones of its three files. *)
Lemma frame_output_names (i : nat) (fm : frame_match) :
  exists tail,
    (map fst (frame_output rgb_dir depth_dir i fm) ++ tail = frame_files i)%list.
Proof.
  unfold frame_output.
  destruct (transcode rgb_dir depth_dir ("frame-" ++ PyStr.fmt_06d i)%string
              (payload (fm_color fm)) (fm_depth fm) (fm_pose fm)
              (State [] [] 0 [] [])) as [s'|s'|s'|e s'] eqn:Ht; simpl.
  - apply transcode_completed in Ht. simpl in Ht. exists [].
    rewrite Ht, app_nil_r. reflexivity.
  - now apply transcode_not_skip in Ht.
  - now apply transcode_not_skip in Ht.
  - apply transcode_raised in Ht as (_ & k & _ & Ht). simpl in Ht.
    rewrite Ht.
    exists (skipn k (frame_files i)).
    change [("frame-" ++ PyStr.fmt_06d i ++ ".color.jpg")%string;
            ("frame-" ++ PyStr.fmt_06d i ++ ".depth.png")%string;
            ("frame-" ++ PyStr.fmt_06d i ++ ".pose.txt")%string]
      with (frame_files i).
    apply firstn_skipn.
Qed.

Lemma outputs_names (l : list frame_match) :
  forall a,
    NoDup (map fst (outputs rgb_dir depth_dir
                            (combine (seq a (List.length l)) l)))
    /\ forall name,
         In name (map fst (outputs rgb_dir depth_dir
                                   (combine (seq a (List.length l)) l))) ->
         exists i, a <= i /\ In name (frame_files i).
Proof.
  induction l as [|fm l IH]; intros a; simpl.
  - split; [constructor | tauto].
  - destruct (IH (S a)) as [Hnd Hin].
    destruct (frame_output_names a fm) as [tail Htail].
    assert (Hhead : forall name,
              In name (map fst (frame_output rgb_dir depth_dir a fm)) ->
              In name (frame_files a)).
    { intros name H. rewrite <- Htail. apply in_or_app. now left. }
    unfold outputs in *. simpl. rewrite map_app. split.
    + apply NoDup_app; auto.
      * pose proof (frame_files_distinct a) as Hd. rewrite <- Htail in Hd.
        now apply NoDup_app_remove_r in Hd.
      * intros name H1 H2. apply Hhead in H1.
        apply Hin in H2 as (i & Hle & H2).
        pose proof (frame_file_index _ _ _ H1 H2). lia.
    + intros name H. apply in_app_or in H as [H | H].
      * exists a. split; [lia | now apply Hhead].
      * apply Hin in H as (i & Hle & H). exists i. split; [lia | exact H].
Qed.

(** X5.  However the loop ends, no file name occurs twice among the files it
    wrote: a run never overwrites a file it wrote itself. *)
Theorem no_file_written_twice (rgb_entries : list (entry string))
    (ds : list (entry string)) (ps : list (entry (list string))) :
  NoDup (map fst (written
                    (final (for_rgb rgb_dir depth_dir margin rgb_entries
                                    (initial ds ps))))).
Proof.
  pose proof (for_rgb_counted rgb_dir depth_dir margin rgb_entries
                (initial ds ps)) as H.
  assert (Hc : counted rgb_dir depth_dir
                 (final (for_rgb rgb_dir depth_dir margin rgb_entries
                                 (initial ds ps)))).
  { destruct (for_rgb rgb_dir depth_dir margin rgb_entries (initial ds ps));
      simpl; apply H; try (split; reflexivity); reflexivity. }
  destruct Hc as [_ ->]. apply outputs_names.
Qed.

End OutputNames.

(** ** The nearest entry *)

Section Nearest.

Context {N : Numeric}.

Hypothesis lt_irrefl : forall a, flt a a = false.
Hypothesis lt_keep :
  forall a b c, flt c b = true -> flt a b = false -> flt a c = false.

Lemma fold_min_least {A} (key : A -> float) (xs : list A) :
  forall (seen : list A) (b : A),
    (forall y, In y seen -> flt (key y) (key b) = false) ->
    forall y, In y (seen ++ xs) ->
              flt (key y) (key (py_min key b xs)) = false.
Proof.
  unfold py_min.
  induction xs as [|x xs IH]; intros seen b Hseen y Hy; simpl.
  - rewrite app_nil_r in Hy. auto.
  - replace (seen ++ x :: xs) with ((seen ++ [x]) ++ xs) in Hy
      by (rewrite <- app_assoc; reflexivity).
    destruct (flt (key x) (key b)) eqn:Hx.
    + apply (IH (seen ++ [x]) x); auto.
      intros y' Hy'. apply in_app_or in Hy' as [Hy' | [<- | []]].
      * eapply lt_keep; eauto.
      * apply lt_irrefl.
    + apply (IH (seen ++ [x]) b); auto.
      intros y' Hy'. apply in_app_or in Hy' as [Hy' | [<- | []]]; auto.
Qed.

(** X2.  The candidate the loop picks from a pool is an entry of the pool, and
    no entry of the pool is strictly nearer to the color entry. *)
Theorem nearest_is_nearest {P} (c : entry string) (pool : list (entry P))
    (d : entry P) :
  nearest c pool = Some d ->
  In d pool
  /\ forall y, In y pool -> flt (gap (ts c) y) (gap (ts c) d) = false.
Proof.
  intros H. split; [eapply nearest_in; eauto|].
  destruct pool as [|x xs]; [discriminate|].
  simpl in H. injection H as <-.
  intros y Hy. apply (fold_min_least (gap (ts c)) xs [x] x).
  - intros y' [<- | []]. apply lt_irrefl.
  - exact Hy.
Qed.

End Nearest.

(** ** Loading a scene *)

Section SceneLoading.

Context {N : Numeric}.

Lemma image_entry_cases (f : string) :
  (numeric (PyStr.rsplit_dot_head f) = true
   /\ exists t, image_entry f = Ok (t, f))
  \/ (numeric (PyStr.rsplit_dot_head f) = false
      /\ image_entry f = Raise ValueError).
Proof.
  unfold image_entry, numeric, float_of.
  destruct (py_float (PyStr.rsplit_dot_head f)); simpl; eauto.
Qed.

Lemma image_entries_cases (files : list string) :
  ((forall f, In f files -> numeric (PyStr.rsplit_dot_head f) = true)
   /\ exists es, image_entries files = Ok es)
  \/ ((exists f, In f files /\ numeric (PyStr.rsplit_dot_head f) = false)
      /\ image_entries files = Raise ValueError).
Proof.
  unfold image_entries. induction files as [|f files IH]; simpl.
  - left. split; [tauto | eauto].
  - destruct (image_entry_cases f) as [(Hn & t & ->) | (Hn & ->)]; simpl.
    + destruct IH as [(Hall & es & Hes) | ((g & Hg & Hng) & Hr)].
      * left. split; [intros g [<- | Hg]; auto|].
        destruct (comprehension image_entry files); simpl in *;
          [eauto | discriminate].
      * right. split; [exists g; auto|].
        destruct (comprehension image_entry files); simpl in *;
          [discriminate | congruence].
    + right. split; [exists f; auto | reflexivity].
Qed.

Lemma image_files_in (exts listing : list string) (f : string) :
  In f (image_files exts listing)
  <-> In f listing /\ PyStr.endswith_any exts (PyStr.lower f) = true.
Proof.
  unfold image_files. split; intros H.
  - apply (Permutation_in _ (PyStrFacts.sorted_perm _)) in H.
    now apply filter_In in H.
  - apply (Permutation_in _ (Permutation_sym (PyStrFacts.sorted_perm _))).
    now apply filter_In.
Qed.

(** X8.  An image file whose stem is no number, in [rgb/] or in [depth/], or a
    pose line whose first token is no number, ends the conversion of the
    scene with a ValueError before any matching is done: nothing is
    written for the scene. *)
Theorem load_error_writes_nothing (tum_folder : scene) (margin : float)
    (rgb_dir depth_dir : image_dir) (pose_file : list string) :
  rgb tum_folder = Some rgb_dir ->
  depth tum_folder = Some depth_dir ->
  groundtruth tum_folder = Some pose_file ->
  (exists f, In f (map fst rgb_dir)
             /\ PyStr.endswith_any [".png"; ".jpg"] (PyStr.lower f) = true
             /\ numeric (PyStr.rsplit_dot_head f) = false)
  \/ (exists f, In f (map fst depth_dir)
                /\ PyStr.endswith_any [".png"] (PyStr.lower f) = true
                /\ numeric (PyStr.rsplit_dot_head f) = false)
  \/ (exists line, In line pose_file /\ keeps line = true
                   /\ numeric_head (PyStr.strip line) = false) ->
  combine_and_rename_files tum_folder margin
  = Abort ValueError (initial [] []).
Proof.
  intros Hr Hd Hg Hbad. unfold combine_and_rename_files.
  rewrite Hr, Hd, Hg.
  destruct (image_entries_cases (image_files [".png"; ".jpg"]
                                             (map fst rgb_dir)))
    as [(Hrgb & cs & ->) | (_ & ->)]; [|reflexivity].
  destruct (image_entries_cases (image_files [".png"] (map fst depth_dir)))
    as [(Hdep & ds & ->) | (_ & ->)]; [|reflexivity].
  destruct (load_poses_cases pose_file)
    as [(Hpose & ps & -> & _) | (_ & ->)]; [|reflexivity].
  exfalso.
  destruct Hbad as [(f & Hf & He & Hn) | [(f & Hf & He & Hn)
                                         | (line & Hl & Hk & Hn)]].
  - rewrite Hrgb in Hn; [discriminate|]. apply image_files_in. auto.
  - rewrite Hdep in Hn; [discriminate|]. apply image_files_in. auto.
  - rewrite (Hpose line Hl Hk) in Hn. discriminate.
Qed.

Lemma before_last_dot_app (s ext : string) :
  PyStr.before_last_dot ext = None ->
  PyStr.before_last_dot (s ++ String "." ext)%string = Some s.
Proof.
  intros He. induction s as [|c s IH]; simpl.
  - now rewrite He.
  - now rewrite IH.
Qed.

(** X9.  The timestamp of an image file is read from everything before the
    last dot of its name: dots inside the stem belong to the number. *)
Theorem timestamp_from_whole_stem (s ext : string) :
  PyStr.before_last_dot ext = None ->
  image_entry (s ++ String "." ext)%string
  = (t <- float_of s ;; Ok (t, (s ++ String "." ext)%string)).
Proof.
  intros He. unfold image_entry, PyStr.rsplit_dot_head.
  now rewrite before_last_dot_app.
Qed.

End SceneLoading.

(** ** The extension filter *)

Module FilterFacts.

Import PyStr.

Lemma lower_app (a b : string) :
  lower (a ++ b)%string = (lower a ++ lower b)%string.
Proof. induction a as [|c a IH]; simpl; [reflexivity | now rewrite IH]. Qed.

Lemma lower_length (s : string) : String.length (lower s) = String.length s.
Proof. induction s as [|c s IH]; simpl; auto. Qed.

(** A lower-cased string splits where the string itself does. *)
Lemma lower_split (x : string) :
  forall y s,
    lower s = (x ++ y)%string ->
    exists s1 s2, s = (s1 ++ s2)%string /\ lower s1 = x /\ lower s2 = y.
Proof.
  induction x as [|c x IH]; intros y s H; simpl in H.
  - exists "", s. auto.
  - destruct s as [|c' s]; simpl in H; [discriminate|].
    injection H as Hc H. destruct (IH y s H) as (s1 & s2 & -> & H1 & H2).
    exists (String c' s1), s2. simpl. now rewrite Hc, H1.
Qed.

Lemma substring_all (s : string) :
  String.substring 0 (String.length s) s = s.
Proof. induction s as [|c s IH]; simpl; [reflexivity | now rewrite IH]. Qed.

Lemma substring_skip (p s : string) (m : nat) :
  String.substring (String.length p) m (p ++ s) = String.substring 0 m s.
Proof. induction p as [|c p IH]; simpl; auto. Qed.

Lemma substring_tail (n : nat) :
  forall s,
    n <= String.length s ->
    exists p,
      String.length p = n
      /\ s = (p ++ String.substring n (String.length s - n) s)%string.
Proof.
  induction n as [|n IH]; intros s Hn.
  - exists "". rewrite Nat.sub_0_r, substring_all. auto.
  - destruct s as [|c s]; simpl in Hn; [lia|].
    destruct (IH s) as (p & Hp & Hs); [lia|].
    exists (String c p). simpl. rewrite Hp. split; [reflexivity|].
    now rewrite <- Hs.
Qed.

(** [s.endswith(suf)] holds exactly of the strings that are some string
    followed by [suf]. *)
Lemma endswith_iff (suf s : string) :
  endswith suf s = true <-> exists p, s = (p ++ suf)%string.
Proof.
  unfold endswith. split.
  - intros H. apply andb_true_iff in H as [Hlen Heq].
    apply Nat.leb_le in Hlen. apply String.eqb_eq in Heq.
    destruct (substring_tail (String.length s - String.length suf) s)
      as (p & Hp & Hs); [lia|].
    exists p. rewrite Hs at 1. f_equal.
    replace (String.length s - (String.length s - String.length suf))
      with (String.length suf) by lia.
    exact Heq.
  - intros [p ->]. rewrite PyStrFacts.length_append.
    apply andb_true_iff. split; [apply Nat.leb_le; lia|].
    apply String.eqb_eq.
    replace (String.length p + String.length suf - String.length suf)
      with (String.length p) by lia.
    rewrite substring_skip. apply substring_all.
Qed.

(** X10.  The loader takes the files of a listing whose name ends in one of the
    extensions, whatever the letter case of the ending, and no other
    file. *)
Theorem extension_filter (exts listing : list string) (f : string) :
  In f (image_files exts listing)
  <-> In f listing
      /\ exists p e, f = (p ++ e)%string /\ In (lower e) exts.
Proof.
  unfold image_files. split.
  - intros H.
    apply (Permutation_in _ (PyStrFacts.sorted_perm _)) in H.
    apply filter_In in H as [Hin He]. split; [exact Hin|].
    unfold endswith_any in He. apply existsb_exists in He as (suf & Hs & He).
    apply endswith_iff in He as [p' He].
    apply lower_split in He as (p & e & -> & _ & He).
    exists p, e. split; [reflexivity | now rewrite He].
  - intros (Hin & p & e & -> & He).
    apply (Permutation_in _ (Permutation_sym (PyStrFacts.sorted_perm _))).
    apply filter_In. split; [exact Hin|].
    unfold endswith_any. apply existsb_exists. exists (lower e).
    split; [exact He|]. apply endswith_iff. exists (lower p).
    apply lower_app.
Qed.

End FilterFacts.

(** ** A batch in which no scene fails *)

Section BatchOutput.

Context {N : Numeric}.

Variables (source_dir : list (string * option scene)) (margin : float).

Lemma for_scenes_returns (names : list string) :
  (forall name sc, In name names ->
     lookup name source_dir = Some (Some sc) ->
     raised (combine_and_rename_files sc margin) = None) ->
  for_scenes source_dir margin names []
  = (flat_map (scene_output margin)
       (flat_map (fun name =>
                    match lookup name source_dir with
                    | Some (Some sc) => [(name, sc)]
                    | _ => []
                    end) names),
     None).
Proof.
  induction names as [|n names IH]; intros Hok; [reflexivity|].
  assert (IH' := IH (fun name sc Hin => Hok name sc (or_intror Hin))).
  simpl. destruct (lookup n source_dir) as [[sc|]|] eqn:Hl; simpl; auto.
  pose proof (Hok n sc (or_introl eq_refl) Hl) as Hr.
  unfold scene_output at 1. simpl.
  destruct (combine_and_rename_files sc margin) as [s|e s];
    [|discriminate].
  rewrite for_scenes_acc, IH'. reflexivity.
Qed.

Lemma for_scenes_none (names : list string) :
  forall out,
    snd (for_scenes source_dir margin names out) = None ->
    forall name sc, In name names ->
      lookup name source_dir = Some (Some sc) ->
      raised (combine_and_rename_files sc margin) = None.
Proof.
  induction names as [|n names IH]; intros out H name sc Hin Hl;
    [destruct Hin|].
  simpl in H. destruct Hin as [<- | Hin].
  - rewrite Hl in H.
    destruct (combine_and_rename_files sc margin); [reflexivity|].
    discriminate.
  - destruct (lookup n source_dir) as [[sc'|]|];
      try exact (IH _ H name sc Hin Hl).
    destruct (combine_and_rename_files sc' margin);
      [exact (IH _ H name sc Hin Hl) | discriminate].
Qed.

Lemma scene_dirs_in (x : string * scene) :
  In x (scene_dirs source_dir)
  <-> In (fst x) (PyStr.sorted (map fst source_dir))
      /\ lookup (fst x) source_dir = Some (Some (snd x)).
Proof.
  unfold scene_dirs. rewrite in_flat_map. split.
  - intros (name & Hin & Hx).
    destruct (lookup name source_dir) as [[sc|]|] eqn:Hl;
      simpl in Hx; try tauto.
    destruct Hx as [<- | []]. simpl. auto.
  - intros [Hin Hl]. exists (fst x). split; [exact Hin|].
    rewrite Hl. left. now destruct x.
Qed.

(** X12.  When no scene folder of the source directory raises, [main] returns
    and the destination holds, for each scene folder in the sorted order
    of the names, the frames of the scene followed by its manifest.
    Entries of the source directory that are not folders leave nothing; a
    scene that lacks an input leaves its manifest only. *)
Theorem batch_output :
  (forall x, In x (scene_dirs source_dir) ->
     raised (combine_and_rename_files (snd x) margin) = None) ->
  main (Some source_dir) margin
  = (flat_map (scene_output margin) (scene_dirs source_dir), None).
Proof.
  intros Hok. unfold main, scene_dirs. apply for_scenes_returns.
  intros name sc Hin Hl. apply (Hok (name, sc)).
  apply scene_dirs_in. auto.
Qed.

(** X13.  [main] returns without an exception exactly when the conversion of
    every scene folder of the source directory does. *)
Theorem batch_returns_iff :
  snd (main (Some source_dir) margin) = None
  <-> forall x, In x (scene_dirs source_dir) ->
        raised (combine_and_rename_files (snd x) margin) = None.
Proof.
  split.
  - intros H [name sc] Hx. apply scene_dirs_in in Hx as [Hin Hl].
    eapply for_scenes_none; eauto.
  - intros Hok. unfold main, scene_dirs. rewrite for_scenes_returns;
      [reflexivity|].
    intros name sc Hin Hl. apply (Hok (name, sc)).
    apply scene_dirs_in. auto.
Qed.

End BatchOutput.

(** ** The manifest *)

Module ManifestFacts.

Import PyStr.

Lemma prefix_app (s b : string) : String.prefix s (s ++ b) = true.
Proof.
  induction s as [|c s IH]; [now destruct b|].
  cbn [String.prefix append]. now destruct (ascii_dec c c).
Qed.

Lemma prefix_split (a : string) :
  forall s, String.prefix a s = true -> exists b, s = (a ++ b)%string.
Proof.
  induction a as [|c a IH]; intros s H; [now exists s|].
  destruct s as [|c' s]; cbn [String.prefix] in H; [discriminate|].
  destruct (ascii_dec c c') as [<- | _]; [|discriminate].
  destruct (IH s H) as [b ->]. now exists b.
Qed.

Lemma contains_unfold (sub s : string) :
  contains sub s
  = String.prefix sub s
    || match s with
       | EmptyString => false
       | String _ s' => contains sub s'
       end.
Proof. destruct s; reflexivity. Qed.

(** [sub in s] holds exactly when [s] is [sub] with something before and
    something after. *)
Lemma contains_iff (sub s : string) :
  contains sub s = true <-> exists a b, s = (a ++ sub ++ b)%string.
Proof.
  split.
  - induction s as [|c s IH]; rewrite contains_unfold; intros H;
      apply orb_true_iff in H as [H | H]; try discriminate.
    + apply prefix_split in H as [b ->]. now exists "", b.
    + apply prefix_split in H as [b ->]. now exists "", b.
    + destruct (IH H) as (a & b & ->). now exists (String c a), b.
  - intros (a & b & ->). induction a as [|c a IH].
    + rewrite contains_unfold. simpl. now rewrite prefix_app.
    + rewrite contains_unfold. simpl. rewrite IH. apply orb_true_r.
Qed.

(** The test of [generate_info_txt], [key in folder_name.lower()], holds
    exactly when the folder name contains [key] in some letter case. *)
Lemma mentions_iff (key name : string) :
  contains key (lower name) = true <-> mentions key name.
Proof.
  rewrite contains_iff. unfold mentions. split.
  - intros (a & b & H).
    apply FilterFacts.lower_split in H as (s1 & s2 & -> & _ & H).
    apply FilterFacts.lower_split in H as (t & s3 & -> & Ht & _).
    now exists s1, t, s3.
  - intros (a & t & b & -> & <-). exists (lower a), (lower b).
    now rewrite !FilterFacts.lower_app.
Qed.

(** X14.  The intrinsics written to the manifest depend on the scene name as
    follows, letter case aside: freiburg1 anywhere in the name selects the
    first preset; otherwise freiburg2 selects the second; otherwise
    freiburg3 selects the third; a name with none of them gets the
    default. *)
Theorem manifest_selection (folder_name : string) :
  (mentions "freiburg1" folder_name ->
   intrinsics_of folder_name
   = "517.3 0 318.6 0 0 516.5 255.3 0 0 0 1 0 0 0 0 1")
  /\ (~ mentions "freiburg1" folder_name ->
      mentions "freiburg2" folder_name ->
      intrinsics_of folder_name
      = "520.9 0 325.1 0 0 521.0 249.7 0 0 0 1 0 0 0 0 1")
  /\ (~ mentions "freiburg1" folder_name ->
      ~ mentions "freiburg2" folder_name ->
      mentions "freiburg3" folder_name ->
      intrinsics_of folder_name
      = "535.4 0 320.1 0 0 539.2 247.6 0 0 0 1 0 0 0 0 1")
  /\ (~ mentions "freiburg1" folder_name ->
      ~ mentions "freiburg2" folder_name ->
      ~ mentions "freiburg3" folder_name ->
      intrinsics_of folder_name
      = "525.0 0 319.5 0 0 525.0 239.5 0 0 0 1 0 0 0 0 1").
Proof.
  unfold intrinsics_of.
  pose proof (mentions_iff "freiburg1" folder_name) as H1.
  pose proof (mentions_iff "freiburg2" folder_name) as H2.
  pose proof (mentions_iff "freiburg3" folder_name) as H3.
  destruct (contains "freiburg1" (lower folder_name));
    destruct (contains "freiburg2" (lower folder_name));
    destruct (contains "freiburg3" (lower folder_name));
    repeat split; intros; try reflexivity;
    try (exfalso; tauto);
    try (exfalso;
         match goal with
         | H : mentions _ _ |- _ =>
             first [ apply H1 in H | apply H2 in H | apply H3 in H ];
             discriminate
         end).
Qed.

End ManifestFacts.

(** ** The depth conversion on any pixel value *)

(** X15.  Whatever integer a depth pixel holds, the converted pixel lies between
    0 and 13107, and pixel values that differ by a multiple of 2^16 give
    the same result: the cast to 16 bits wraps around before the
    division. *)
Theorem depth_pixel_range (v k : Z) :
  (0 <= depth_pixel v <= 13107)%Z
  /\ depth_pixel (v + k * 65536) = depth_pixel v.
Proof.
  unfold depth_pixel. split.
  - pose proof (Z.mod_pos_bound v 65536 eq_refl) as Hm. split.
    + apply Z.div_pos; lia.
    + change 13107%Z with (65535 / 5)%Z. apply Z.div_le_mono; lia.
  - now rewrite Z.mod_add by discriminate.
Qed.

(** ** Files of a scene and frames *)

Section FilesOnce.

Context {N : Numeric}.

Hypothesis lt_irrefl : forall a, flt a a = false.
Hypothesis lt_keep :
  forall a b c, flt c b = true -> flt a b = false -> flt a c = false.
Hypothesis eq_gap :
  forall t t', feq t t' = true ->
  forall c x, flt (fabs (fsub c t)) x = flt (fabs (fsub c t')) x.

Lemma subseq_in {A} (l1 l2 : list A) :
  subseq l1 l2 -> forall x, In x l1 -> In x l2.
Proof.
  induction 1 as [|y l1 l2 _ IH|y l1 l2 _ IH]; intros x Hx; simpl in *; auto.
  destruct Hx as [<- | Hx]; auto.
Qed.

Lemma subseq_map {A B} (f : A -> B) (l1 l2 : list A) :
  subseq l1 l2 -> subseq (map f l1) (map f l2).
Proof.
  induction 1; simpl;
    [apply subseq_nil | now apply subseq_skip | now apply subseq_take].
Qed.

Lemma subseq_nodup {A} (l1 l2 : list A) :
  subseq l1 l2 -> NoDup l2 -> NoDup l1.
Proof.
  induction 1 as [|y l1 l2 Hs IH|y l1 l2 Hs IH]; intros Hnd; auto.
  - inversion Hnd; auto.
  - inversion Hnd as [|? ? Hy Hl2]; subst. constructor; auto.
    intros Hin. apply Hy. eapply subseq_in; eauto.
Qed.

Lemma image_files_distinct (exts listing : list string) :
  NoDup listing -> NoDup (image_files exts listing).
Proof.
  intros H. unfold image_files.
  eapply Permutation_NoDup;
    [apply Permutation_sym, PyStrFacts.sorted_perm|].
  now apply NoDup_filter.
Qed.

(** X11.  In a scene whose [rgb/] and [depth/] folders list every file name once,
    as folders do, no color file and no depth file goes into two frames. *)
Theorem files_used_once (tum_folder : scene) (margin : float)
    (rgb_dir depth_dir : image_dir) :
  rgb tum_folder = Some rgb_dir ->
  depth tum_folder = Some depth_dir ->
  NoDup (map fst rgb_dir) ->
  NoDup (map fst depth_dir) ->
  let s := final (combine_and_rename_files tum_folder margin) in
  NoDup (map (fun fm => payload (fm_color fm)) (matched s))
  /\ NoDup (map (fun fm => payload (fm_depth fm)) (matched s)).
Proof.
  intros Hr Hd Nr Nd. unfold combine_and_rename_files. rewrite Hr, Hd.
  destruct (groundtruth tum_folder) as [pose_file|];
    [|split; apply NoDup_nil].
  destruct (image_entries (image_files _ (map fst rgb_dir))) as [cs|] eqn:Hcs;
    [|split; apply NoDup_nil].
  destruct (image_entries (image_files _ (map fst depth_dir))) as [ds|]
    eqn:Hds; [|split; apply NoDup_nil].
  destruct (load_poses pose_file) as [ps|] eqn:Hps;
    [|split; apply NoDup_nil].
  cbv zeta. split.
  - pose proof (for_rgb_matches rgb_dir depth_dir margin cs
                  (initial ds ps)) as (ms & E & Hsub).
    simpl in E. rewrite E.
    apply (subseq_map payload) in Hsub. rewrite map_map in Hsub.
    eapply subseq_nodup; [exact Hsub|].
    apply image_entries_fields in Hcs as [-> _].
    now apply image_files_distinct.
  - assert (Od : NoDup (map oid ds)).
    { unfold image_entries in Hds.
      destruct (comprehension image_entry _); simpl in Hds; [|discriminate].
      injection Hds as <-. apply number_distinct. }
    assert (Op : NoDup (map oid ps)).
    { unfold load_poses in Hps.
      destruct (comprehension pose_entry _); simpl in Hps; [|discriminate].
      injection Hps as <-. apply number_distinct. }
    assert (C : conserved ds ps
                  (final (for_rgb rgb_dir depth_dir margin cs
                                  (initial ds ps)))).
    { apply for_rgb_conserves; auto. split; simpl; reflexivity. }
    destruct C as [Cd _].
    apply image_entries_fields in Hds as [Hpay _].
    apply (Permutation_map payload), Permutation_sym in Cd.
    rewrite Hpay in Cd.
    pose proof (image_files_distinct [".png"]%string _ Nd) as Nd'.
    apply (Permutation_NoDup Cd) in Nd'.
    rewrite map_app, map_map in Nd'. now apply NoDup_app_remove_r in Nd'.
Qed.

End FilesOnce.

(** ** Further concrete runs *)

Module MoreRuns.

Import Exact Scenes MoreScenes.

Local Open Scope Q_scope.



Lemma nearest_is_nearest_witness :
  In (depth_at 1 (101 # 100) "1.01.png") three_depths
  /\ forall y, In y three_depths ->
       flt (gap 1 y) (gap 1 (depth_at 1 (101 # 100) "1.01.png")) = false.
Proof.
  exact (nearest_is_nearest (N := numeric) ExactFacts.lt_irrefl
           ExactFacts.lt_keep (color 0 1 "1.00.png") three_depths
           (depth_at 1 (101 # 100) "1.01.png") eq_refl).
Defined.

Lemma load_error_writes_nothing_witness :
  combine_and_rename_files bad_log margin
  = Abort ValueError (initial [] []).
Proof.
  apply (load_error_writes_nothing (N := numeric) bad_log margin
           [("1.00.png"%string, px [7%Z])]
           [("1.00.png"%string, px [5000%Z])]
           [line "not-a-number 1 2 3 0 0 0 1"] eq_refl eq_refl eq_refl).
  right. right. exists (line "not-a-number 1 2 3 0 0 0 1").
  split; [now left|]. split; reflexivity.
Defined.

Lemma timestamp_from_whole_stem_witness :
  image_entry "1305031102.175304.png"
  = (t <- float_of "1305031102.175304" ;;
     Ok (t, "1305031102.175304.png"%string)).
Proof.
  exact (timestamp_from_whole_stem (N := numeric) "1305031102.175304" "png"
           eq_refl).
Defined.

Lemma mixed_batch_returns :
  forall x, In x (scene_dirs mixed_batch) ->
            raised (combine_and_rename_files (snd x) margin) = None.
Proof.
  intros x Hx. vm_compute in Hx.
  destruct Hx as [<- | [<- | []]]; vm_compute; reflexivity.
Qed.

Lemma batch_output_witness :
  main (Some mixed_batch) margin
  = (flat_map (scene_output margin) (scene_dirs mixed_batch), None).
Proof.
  exact (batch_output (N := numeric) mixed_batch margin mixed_batch_returns).
Defined.

Lemma batch_returns_iff_witness :
  snd (main (Some mixed_batch) margin) = None.
Proof.
  exact (proj2 (batch_returns_iff (N := numeric) mixed_batch margin)
               mixed_batch_returns).
Defined.

(** What the batch above leaves: the frame of the scene and its manifest,
    and the manifest alone for the folder that is no scene; nothing for
    the plain file. *)
Example mixed_batch_files :
  map (fun x => (fst x, fst (snd x))) (fst (main (Some mixed_batch) margin))
  = [("empty", "info.txt");
     ("scene_b", "frame-000000.color.jpg");
     ("scene_b", "frame-000000.depth.png");
     ("scene_b", "frame-000000.pose.txt"); ("scene_b", "info.txt")]%string.
Proof. vm_compute. reflexivity. Qed.

Lemma manifest_selection_witness :
  intrinsics_of "rgbd_dataset_Freiburg2_xyz"
  = "520.9 0 325.1 0 0 521.0 249.7 0 0 0 1 0 0 0 0 1"%string.
Proof.
  apply (ManifestFacts.manifest_selection "rgbd_dataset_Freiburg2_xyz").
  - intros H. apply ManifestFacts.mentions_iff in H. discriminate.
  - exists "rgbd_dataset_"%string, "Freiburg2"%string, "_xyz"%string.
    split; reflexivity.
Defined.

Lemma extension_filter_witness :
  In "1.0.PNG"%string
     (image_files [".png"]%string ["notes.txt"; "1.0.PNG"]%string).
Proof.
  apply FilterFacts.extension_filter. split.
  - right. now left.
  - exists "1.0"%string, ".PNG"%string. split; [reflexivity | now left].
Defined.

Lemma files_used_once_witness :
  let s := final (combine_and_rename_files shared_depth margin) in
  NoDup (map (fun fm => payload (fm_color fm)) (matched s))
  /\ NoDup (map (fun fm => payload (fm_depth fm)) (matched s)).
Proof.
  apply (files_used_once (N := numeric) ExactFacts.lt_irrefl
           ExactFacts.lt_keep ExactFacts.eq_gap shared_depth margin
           [("1.00.png"%string, px [7%Z]); ("1.01.png"%string, px [8%Z])]
           [("1.005.png"%string, px [5000%Z; 4999%Z])] eq_refl eq_refl).
  - repeat constructor; simpl; intuition discriminate.
  - repeat constructor; simpl; tauto.
Defined.

End MoreRuns.
